(** * Image resizer / compressor service: the transformation pipeline

    A shallow embedding of [backend/main.py] and the properties of its
    dimension resolver, encoder-parameter mapping, request parsing and
    batch orchestration.

    Conventions.
    - Python [int] is [Z]; Python [float] is a rational that went through
      [fl], rounding to a 53-bit significand with ties to even (the
      binary64 significand).  The exponent range of binary64 is modelled
      where a request can reach it, in the percentage of a batch preset
      ([pct_target], with [OverflowError]); it is not modelled for raster
      sizes, which a decoder keeps far inside it.
    - Python [str] is [string], read as a sequence of code points below 256.
    - The imaging library (decode, resize, convert, encode) is not code of
      the service; it enters through the class [Imaging]. *)

From Stdlib Require Import ZArith QArith Qabs Lia Lqa List Bool.
From Stdlib Require Import Ascii String.
From Stdlib Require Import DecimalString DecimalZ DecimalPos.
Import ListNotations.

Local Open Scope Z_scope.

(** ** Python numbers *)

Module PyNum.

(** [round(x)] on the fraction [n/d] with [0 < d]: nearest integer, ties to
    the even one. *)
Definition round_half_even (n d : Z) : Z :=
  let q := n / d in
  let r := n mod d in
  match 2 * r ?= d with
  | Lt => q
  | Gt => q + 1
  | Eq => if Z.even q then q else q + 1
  end.

(** [round(x)] for a float [x], giving an [int]. *)
Definition py_round (x : Q) : Z := round_half_even (Qnum x) (Zpos (Qden x)).

(** [2^e] as a rational, for any integer exponent. *)
Definition pow2 (e : Z) : Q :=
  if 0 <=? e then inject_Z (2 ^ e) else 1 # Z.to_pos (2 ^ (- e)).

(** The fraction [(n/d) / 2^e] with integer numerator and denominator. *)
Definition scaled (n d e : Z) : Z * Z :=
  if 0 <=? e then (n, d * 2 ^ e) else (n * 2 ^ (- e), d).

(** The exponent [e] with [2^52 <= (n/d) / 2^e < 2^53], for [0 < n], [0 < d]. *)
Definition binade (n d : Z) : Z :=
  let e0 := Z.log2 n - Z.log2 d - 53 in
  let '(num0, den0) := scaled n d e0 in
  if 2 ^ 53 <=? num0 / den0 then e0 + 1 else e0.

(** Rounding of the positive fraction [n/d] to 53 significant bits. *)
Definition fl_pos (n d : Z) : Q :=
  let e := binade n d in
  let '(num, den) := scaled n d e in
  (inject_Z (round_half_even num den) * pow2 e)%Q.

(** Rounding of a rational to the nearest float, ties to even. *)
Definition fl (x : Q) : Q :=
  match Qnum x with
  | Z0 => 0%Q
  | Zpos p => fl_pos (Zpos p) (Zpos (Qden x))
  | Zneg p => (- fl_pos (Zpos p) (Zpos (Qden x)))%Q
  end.

(** [float(n)] for an [int]. *)
Definition float_of_int (n : Z) : Q := fl (inject_Z n).

(** [x * y] on floats. *)
Definition float_mul (x y : Q) : Q := fl (x * y).

(** [x / y] on floats, [y] not zero. *)
Definition float_div (x y : Q) : Q := fl (x / y).

(** [a / b] on ints (true division): the quotient rounded once. *)
Definition int_truediv (a b : Z) : Q := fl (inject_Z a / inject_Z b).

(** [min(a, b)] on floats: the first argument unless the second is smaller. *)
Definition float_min (a b : Q) : Q :=
  match (b ?= a)%Q with Lt => b | _ => a end.

(** Half an ulp, relative: the unit roundoff [2^-53]. *)
Definition u53 : Q := 1 # 9007199254740992.

(** The first magnitude that is no finite binary64 float: a value that rounds
    to [2^1024] or beyond overflows. *)
Definition float_limit : Q := inject_Z (2 ^ 1024).

(** The rounded value [x] is out of the binary64 range: [float(n)] raises
    [OverflowError] there, and a product is infinite. *)
Definition overflows (x : Q) : bool := Qle_bool float_limit (Qabs x).

End PyNum.

(** ** Python strings *)

Module PyStr.

Definition code (c : ascii) : Z := Z.of_N (N_of_ascii c).

Definition in_range (lo hi : Z) (c : ascii) : bool :=
  (lo <=? code c) && (code c <=? hi).

(** [c.isspace()]: the white space that [str.strip()] and [int()] discard. *)
Definition is_space (c : ascii) : bool :=
  in_range 9 13 c || in_range 28 32 c || (code c =? 133) || (code c =? 160).

Definition is_digit (c : ascii) : bool := in_range 48 57 c.
Definition is_upper (c : ascii) : bool := in_range 65 90 c.
Definition is_lower (c : ascii) : bool := in_range 97 122 c.
Definition is_alnum (c : ascii) : bool := is_upper c || is_lower c || is_digit c.

Fixpoint lstrip_by (p : ascii -> bool) (s : string) : string :=
  match s with
  | EmptyString => EmptyString
  | String c s' => if p c then lstrip_by p s' else s
  end.

Fixpoint rstrip_by (p : ascii -> bool) (s : string) : string :=
  match s with
  | EmptyString => EmptyString
  | String c s' =>
      match rstrip_by p s' with
      | EmptyString => if p c then EmptyString else String c EmptyString
      | t => String c t
      end
  end.

(** [s.strip()] *)
Definition strip (s : string) : string := rstrip_by is_space (lstrip_by is_space s).

(** [s.strip(c)] for a single character [c]. *)
Definition strip_char (c : ascii) (s : string) : string :=
  rstrip_by (Ascii.eqb c) (lstrip_by (Ascii.eqb c) s).

(** [c.lower()] on code points below 256. *)
Definition lower_char (c : ascii) : ascii :=
  if is_upper c || (in_range 192 222 c && negb (code c =? 215))
  then ascii_of_N (N_of_ascii c + 32) else c.

Fixpoint lower (s : string) : string :=
  match s with
  | EmptyString => EmptyString
  | String c s' => String (lower_char c) (lower s')
  end.

(** [s.replace(a, b)] for single characters. *)
Fixpoint replace_char (a b : ascii) (s : string) : string :=
  match s with
  | EmptyString => EmptyString
  | String c s' => String (if Ascii.eqb c a then b else c) (replace_char a b s')
  end.

(** [c in s] for a single character. *)
Fixpoint contains (c : ascii) (s : string) : bool :=
  match s with
  | EmptyString => false
  | String d s' => Ascii.eqb d c || contains c s'
  end.

(** [s.split(c)[-1]]: what follows the last [c], or all of [s]. *)
Fixpoint last_segment (c : ascii) (s : string) : string :=
  match s with
  | EmptyString => EmptyString
  | String d s' =>
      if contains c s then last_segment c s' else s
  end.

(** [s.split(c, 1)]: the text before and after the first [c], when there is
    one. *)
Fixpoint split_once (c : ascii) (s : string) : option (string * string) :=
  match s with
  | EmptyString => None
  | String d s' =>
      if Ascii.eqb d c then Some (EmptyString, s')
      else match split_once c s' with
           | Some (a, b) => Some (String d a, b)
           | None => None
           end
  end.

(** [s.endswith(c)] and [s[:-1]]. *)
Fixpoint endswith (c : ascii) (s : string) : bool :=
  match s with
  | EmptyString => false
  | String d EmptyString => Ascii.eqb d c
  | String _ s' => endswith c s'
  end.

Fixpoint drop_last (s : string) : string :=
  match s with
  | EmptyString => EmptyString
  | String _ EmptyString => EmptyString
  | String d s' => String d (drop_last s')
  end.

(** The digits of an [int()] literal: digits with single underscores between
    them. *)
Fixpoint int_digits (acc : Z) (after_digit : bool) (s : string) : option Z :=
  match s with
  | EmptyString => if after_digit then Some acc else None
  | String c s' =>
      if is_digit c then int_digits (10 * acc + (code c - 48)) true s'
      else if Ascii.eqb c "_"%char then
             (if after_digit then int_digits acc false s' else None)
      else None
  end.

(** The interpreter's cap on the digits of a literal given to [int()]
    ([sys.int_info.default_max_str_digits]), and the digits counted against
    it: leading zeros count, the sign and underscores do not. *)
Definition int_max_str_digits : nat := 4300.

Fixpoint count_digits (s : string) : nat :=
  match s with
  | EmptyString => O
  | String c s' => if is_digit c then S (count_digits s') else count_digits s'
  end.

(** [int(s)]: [None] stands for [ValueError], raised for a malformed literal
    and for one with more than [int_max_str_digits] digits. *)
Definition py_int (s : string) : option Z :=
  let t := strip s in
  if Nat.ltb int_max_str_digits (count_digits t) then None
  else
    match t with
    | String "+"%char t' => int_digits 0 false t'
    | String "-"%char t' => option_map Z.opp (int_digits 0 false t')
    | _ => int_digits 0 false t
    end.

(** [c * n] *)
Fixpoint repeat_char (c : ascii) (n : nat) : string :=
  match n with
  | O => EmptyString
  | S n' => String c (repeat_char c n')
  end.

(** [str(n)] for an [int]. *)
Definition py_str (n : Z) : string := NilZero.string_of_int (Z.to_int n).

End PyStr.

(** ** The imaging library and the web framework, as the service sees them *)

Definition bytes := list Byte.byte.

(** Keyword arguments of [img.save(buf, format=..., ...)]. *)
Inductive save_args : Type :=
| SaveJPEG (quality : Z) (optimize progressive : bool)
| SaveWEBP (quality : Z) (method : Z)
| SavePNG (optimize : bool) (compress_level : Z).

(** What the service uses of the imaging library. [image_open] stands for
    [Image.open] followed by [ImageOps.exif_transpose]; it gives [None] when
    either raises, and [open_error] is then the text of the exception.
    [flatten_on_white] is the white RGB canvas with the image pasted through
    its own alpha channel. *)
Class Imaging : Type := {
  image : Type;
  image_open : bytes -> option image;
  open_error : bytes -> string;
  size : image -> Z * Z;
  mode : image -> string;
  has_transparency : image -> bool;
  resize_lanczos : image -> Z * Z -> image;
  convert : image -> string -> image;
  flatten_on_white : image -> image;
  save : image -> save_args -> bytes
}.

(** An uploaded form file: its client-side name and its content. *)
Record UploadFile : Type := {
  filename : option string;
  content : bytes
}.

(** Exceptions that leave a handler. *)
Inductive exn : Type :=
| HTTPException (status_code : Z) (detail : string)
| ZeroDivisionError
| OverflowError.

(** Effects a handler has on its surroundings, in order. *)
Inductive event : Type :=
| EvRead (f : UploadFile)
| EvOpen (data : bytes)
| EvWrite (name : string) (data : bytes).

Inductive result (A : Type) : Type :=
| Ok (a : A)
| Raise (e : exn).
Arguments Ok {A} a.
Arguments Raise {A} e.

(** Computations that log events and may raise. *)
Definition M (A : Type) : Type := list event -> result A * list event.

Definition ret {A} (a : A) : M A := fun log => (Ok a, log).
Definition raise {A} (e : exn) : M A := fun log => (Raise e, log).
Definition emit (ev : event) : M unit := fun log => (Ok tt, log ++ [ev]).
Definition bind {A B} (m : M A) (k : A -> M B) : M B :=
  fun log =>
    match m log with
    | (Ok a, log') => k a log'
    | (Raise e, log') => (Raise e, log')
    end.
Definition lift {A} (r : result A) : M A := fun log => (r, log).

Declare Scope py_scope.
Delimit Scope py_scope with py.
Notation "x <- m ;; k" := (bind m (fun x => k))
  (at level 61, m at next level, right associativity) : py_scope.
Notation "' pat <- m ;; k" := (bind m (fun x => match x with pat => k end))
  (at level 61, pat pattern, m at next level, right associativity) : py_scope.
Notation "m ;;; k" := (bind m (fun _ => k))
  (at level 61, right associativity) : py_scope.

Definition run {A} (m : M A) : result A * list event := m [].

(** ** backend/main.py *)

Module Main.

Import PyNum PyStr.
Local Open Scope string_scope.
Local Open Scope Z_scope.
Local Open Scope py_scope.

Definition APP_NAME : string := "Image Resizer & Compressor".
Definition MAX_DIMENSION : Z := 20000.

(** [x or default] on strings: the empty string is falsy. *)
Definition str_or (x : option string) (default : string) : string :=
  match x with
  | Some (String c s) => String c s
  | _ => default
  end.

(** [x or default] on ints: zero is falsy. *)
Definition int_or (x : option Z) (default : Z) : Z :=
  match x with
  | Some 0 | None => default
  | Some n => n
  end.

(** The class [[A-Za-z0-9._-]]. *)
Definition name_char (c : ascii) : bool :=
  is_alnum c || Ascii.eqb c "." || Ascii.eqb c "_" || Ascii.eqb c "-".

(** [re.sub(r"[^A-Za-z0-9._-]+", "_", s)]; [in_run] says the previous character
    was replaced already. *)
Fixpoint sub_disallowed (in_run : bool) (s : string) : string :=
  match s with
  | EmptyString => EmptyString
  | String c s' =>
      if name_char c then String c (sub_disallowed false s')
      else if in_run then sub_disallowed true s'
      else String "_" (sub_disallowed true s')
  end.

(** [re.sub(r"_+", "_", s)] *)
Fixpoint sub_underscores (in_run : bool) (s : string) : string :=
  match s with
  | EmptyString => EmptyString
  | String c s' =>
      if Ascii.eqb c "_"
      then (if in_run then sub_underscores true s'
            else String "_" (sub_underscores true s'))
      else String c (sub_underscores false s')
  end.

Definition _clean_filename (name : string) : string :=
  let name := last_segment "/" (replace_char "\" "/" (strip name)) in
  let name := sub_disallowed false name in
  let name := strip_char "_" (sub_underscores false name) in
  str_or (Some name) "image".

(** The longest run of [[A-Za-z0-9]] at the head of [s], and what follows. *)
Fixpoint span_alnum (s : string) : string * string :=
  match s with
  | String c s' =>
      if is_alnum c then let '(a, b) := span_alnum s' in (String c a, b)
      else (EmptyString, s)
  | EmptyString => (EmptyString, EmptyString)
  end.

Definition newline : ascii := ascii_of_nat 10.

(** [$]: the end of the string, or just before a final newline. *)
Definition at_end (s : string) : bool :=
  match s with
  | EmptyString => true
  | String c EmptyString => Ascii.eqb c newline
  | _ => false
  end.

(** [(\.[A-Za-z0-9]+)$] at the head of [s]: the extension matched. *)
Definition match_ext (s : string) : option string :=
  match s with
  | String "." s' =>
      let '(run, rest) := span_alnum s' in
      match run with
      | EmptyString => None
      | _ => if at_end rest then Some (String "." run) else None
      end
  | _ => None
  end.

(** [re.match(r"^(.*?)(\.[A-Za-z0-9]+)?$", s)]: the shortest first group after
    which the rest is an extension or the end; [.] does not match a newline. *)
Fixpoint match_name_ext (s : string) : option (string * string) :=
  match match_ext s with
  | Some ext => Some (EmptyString, ext)
  | None =>
      if at_end s then Some (EmptyString, EmptyString)
      else match s with
           | EmptyString => None
           | String c s' =>
               if Ascii.eqb c newline then None
               else match match_name_ext s' with
                    | Some (b, e) => Some (String c b, e)
                    | None => None
                    end
           end
  end.

Definition _split_name_ext (name : string) : string * string :=
  match match_name_ext name with
  | None => (name, "")
  | Some (g1, g2) => (g1, g2)
  end.

Definition _parse_int (v : option string) : option Z :=
  match v with
  | None => None
  | Some v =>
      let v := strip v in
      match v with
      | EmptyString => None
      | _ => py_int v
      end
  end.

(** One round of the loop of [_validate_dims]. *)
Definition validate_dim (n : option Z) : result unit :=
  match n with
  | None => Ok tt
  | Some n =>
      if n <=? 0 then Raise (HTTPException 400 "Width/Height must be positive.")
      else if MAX_DIMENSION <? n
           then Raise (HTTPException 400 ("Max dimension is " ++ py_str MAX_DIMENSION ++ "px."))
           else Ok tt
  end.

Definition _validate_dims (w h : option Z) : result unit :=
  match validate_dim w with
  | Ok _ => validate_dim h
  | Raise e => Raise e
  end.

Definition _normalize_format (fmt : string) : string :=
  let fmt := lower (strip fmt) in
  if String.eqb fmt "jpg" || String.eqb fmt "jpeg" then "jpeg"
  else if String.eqb fmt "png" then "png"
  else if String.eqb fmt "webp" then "webp"
  else "".

Definition _format_ext (fmt : string) : string :=
  if String.eqb fmt "jpeg" then ".jpg" else "." ++ fmt.

(** [max(1, int(round(n * scale)))] *)
Definition scale_dim (n : Z) (scale : Q) : Z :=
  Z.max 1 (py_round (float_mul (float_of_int n) scale)).

(** The floats here are not checked against the binary64 range: the service
    calls this with the size of a decoded raster and with targets that passed
    [_validate_dims], where nothing overflows. *)
Definition _fit_size_keep_ratio (ow oh : Z) (tw th : option Z) : result (Z * Z) :=
  match tw, th with
  | None, None => Ok (ow, oh)
  | Some tw, None =>
      if ow =? 0 then Raise ZeroDivisionError
      else let scale := int_truediv tw ow in
           Ok (scale_dim ow scale, scale_dim oh scale)
  | None, Some th =>
      if oh =? 0 then Raise ZeroDivisionError
      else let scale := int_truediv th oh in
           Ok (scale_dim ow scale, scale_dim oh scale)
  | Some tw, Some th =>
      if (ow =? 0) || (oh =? 0) then Raise ZeroDivisionError
      else let scale := float_min (int_truediv tw ow) (int_truediv th oh) in
           Ok (scale_dim ow scale, scale_dim oh scale)
  end.

(** The size [_resize_image] settles on for an image of size [(ow, oh)]. *)
Definition resolve_size (ow oh : Z) (tw th : option Z) (keep_ratio : bool)
  : result (Z * Z) :=
  match tw, th with
  | None, None => Ok (ow, oh)
  | _, _ =>
      if keep_ratio then _fit_size_keep_ratio ow oh tw th
      else Ok (int_or tw ow, int_or th oh)
  end.

Section WithImaging.

Context {imaging : Imaging}.

Definition _resize_image (img : image) (tw th : option Z) (keep_ratio : bool)
  : result image :=
  let '(ow, oh) := size img in
  match resolve_size ow oh tw th keep_ratio with
  | Raise e => Raise e
  | Ok (nw, nh) =>
      match tw, th with
      | None, None => Ok img
      | _, _ =>
          if (nw =? ow) && (nh =? oh) then Ok img
          else Ok (resize_lanczos img (nw, nh))
      end
  end.

Definition _prepare_for_format (img : image) (out_fmt : string) : image :=
  if String.eqb out_fmt "jpeg" then
    if String.eqb (mode img) "RGBA" || String.eqb (mode img) "LA"
       || (String.eqb (mode img) "P" && has_transparency img)
    then flatten_on_white img
    else if String.eqb (mode img) "RGB" then img else convert img "RGB"
  else if String.eqb out_fmt "png" || String.eqb out_fmt "webp" then
    if String.eqb (mode img) "P" then convert img "RGBA" else img
  else img.

(** [compress_level] of the PNG branch of [_save_image], from the clamped
    quality. *)
Definition png_compress_level (q : Z) : Z :=
  let compress_level := py_round (int_truediv ((100 - q) * 9) 90) in
  Z.max 0 (Z.min 9 compress_level).

Definition _save_image (img : image) (out_fmt : string) (quality : Z)
  : result bytes :=
  let q := Z.max 10 (Z.min 100 quality) in
  if String.eqb out_fmt "jpeg" then Ok (save img (SaveJPEG q true true))
  else if String.eqb out_fmt "webp" then Ok (save img (SaveWEBP q 6))
  else if String.eqb out_fmt "png" then
    Ok (save img (SavePNG true (png_compress_level q)))
  else Raise (HTTPException 400 "Unsupported output format.").

Definition _process_bytes (data : bytes) (width height : option Z)
    (keep_ratio : bool) (quality : Z) (out_fmt : string)
  : M (bytes * (Z * Z)) :=
  emit (EvOpen data) ;;;
  match image_open data with
  | None => raise (HTTPException 400 ("Could not read image: " ++ open_error data))
  | Some img =>
      lift (_validate_dims width height) ;;;
      img <- lift (_resize_image img width height keep_ratio) ;;
      let img := _prepare_for_format img out_fmt in
      out <- lift (_save_image img out_fmt quality) ;;
      ret (out, size img)
  end.

(** The double quote character, as a string. *)
Definition dquote : string := String (ascii_of_nat 34) EmptyString.

(** What a handler answers: [StreamingResponse(...)]. *)
Inductive body : Type :=
| ImageBody (data : bytes)
| ZipBody (entries : list (string * bytes)).

Record Response : Type := {
  resp_body : body;
  media_type : string;
  headers : list (string * string);
  resp_status : Z
}.

Definition process_single (file : UploadFile) (width height : option string)
    (keep_ratio : bool) (quality : Z) (out_format : string) : M Response :=
  let out_fmt := _normalize_format out_format in
  if String.eqb out_fmt "" then
    raise (HTTPException 400 "Output format must be JPG, PNG, or WEBP.")
  else
    let w := _parse_int width in
    let h := _parse_int height in
    emit (EvRead file) ;;;
    let data := content file in
    match data with
    | [] => raise (HTTPException 400 "Empty file.")
    | _ =>
        '(out_bytes, (nw, nh)) <-
          _process_bytes data w h keep_ratio quality out_fmt ;;
        let safe := _clean_filename (str_or (filename file) "image") in
        let '(base_name, _ext) := _split_name_ext safe in
        let out_name := base_name ++ _format_ext out_fmt in
        ret {| resp_body := ImageBody out_bytes;
               media_type := "image/" ++ out_fmt;
               headers :=
                 [("Content-Disposition",
                   "attachment; filename=" ++ dquote ++ out_name ++ dquote);
                  ("X-Original-Bytes", py_str (Z.of_nat (List.length data)));
                  ("X-Processed-Bytes", py_str (Z.of_nat (List.length out_bytes)));
                  ("X-Output-Width", py_str nw);
                  ("X-Output-Height", py_str nh)];
               resp_status := 200 |}
    end.

(** The preset of a batch request (the [pct] and [fixed] of [process_zip]). *)
Definition preset_of_form (preset : option string) : option Z * option (Z * Z) :=
  let preset := strip (match preset with Some s => s | None => "" end) in
  if endswith "%" preset then
    (match py_int (drop_last preset) with
     | Some pct => if pct <=? 0 then None else Some pct
     | None => None
     end, None)
  else if contains "x" preset then
    (None,
     match split_once "x" (lower preset) with
     | Some (a, b) =>
         match py_int a, py_int b with
         | Some a, Some b => Some (a, b)
         | _, _ => None
         end
     | None => None
     end)
  else (None, None).

(** The value of [max(1, int(round(n * (pct / 100.0))))] when no float in it
    overflows. *)
Definition pct_dim (n pct : Z) : Z :=
  scale_dim n (float_div (float_of_int pct) (inject_Z 100)).

(** [max(1, int(round(n * (pct / 100.0))))]: [pct] and [n] are converted to
    floats, which raises [OverflowError] out of range, and so does [round] on
    an infinite product. *)
Definition pct_target (n pct : Z) : result Z :=
  let fp := float_of_int pct in
  if overflows fp then Raise OverflowError
  else
    let fn := float_of_int n in
    if overflows fn then Raise OverflowError
    else if overflows (float_mul fn (float_div fp (inject_Z 100)))
         then Raise OverflowError
         else Ok (pct_dim n pct).

(** The archive being written and the count of files written to it. *)
Definition zip_state : Type := list (string * bytes) * Z.

(** [zf.namelist()] *)
Definition namelist (zf : list (string * bytes)) : list string := map fst zf.

(** [name in names] *)
Definition name_in (name : string) (names : list string) : bool :=
  existsb (String.eqb name) names.

(** The width and height a file of the batch is processed with: [None] is the
    [continue] of the percentage branch. *)
Definition batch_dims (pct : option Z) (fixed : option (Z * Z)) (w h : option Z)
    (data : bytes) : M (option (option Z * option Z)) :=
  match pct with
  | Some pct =>
      emit (EvOpen data) ;;;
      match image_open data with
      | None => ret None
      | Some im =>
          let '(ow, oh) := size im in
          tw <- lift (pct_target ow pct) ;;
          th <- lift (pct_target oh pct) ;;
          ret (Some (Some tw, Some th))
      end
  | None =>
      match fixed with
      | Some (a, b) => ret (Some (Some a, Some b))
      | None => ret (Some (w, h))
      end
  end.

(** The name an output is stored under in the archive. *)
Definition entry_name (f : UploadFile) (out_fmt : string)
    (zf : list (string * bytes)) (processed_count : Z) : string :=
  let safe :=
    _clean_filename (str_or (filename f) ("image_" ++ py_str (processed_count + 1))) in
  let '(base_name, _ext) := _split_name_ext safe in
  let out_name := base_name ++ _format_ext out_fmt in
  if name_in out_name (namelist zf)
  then base_name ++ "_" ++ py_str (processed_count + 1) ++ _format_ext out_fmt
  else out_name.

(** One round of the loop of [process_zip]. *)
Definition zip_one (pct : option Z) (fixed : option (Z * Z)) (w h : option Z)
    (keep_ratio : bool) (quality : Z) (out_fmt : string)
    (st : zip_state) (f : UploadFile) : M zip_state :=
  let '(zf, processed_count) := st in
  emit (EvRead f) ;;;
  let data := content f in
  match data with
  | [] => ret st
  | _ =>
      dims <- batch_dims pct fixed w h data ;;
      match dims with
      | None => ret st
      | Some (use_w, use_h) =>
          '(out_bytes, _size) <-
            _process_bytes data use_w use_h keep_ratio quality out_fmt ;;
          let out_name := entry_name f out_fmt zf processed_count in
          emit (EvWrite out_name out_bytes) ;;;
          ret ((zf ++ [(out_name, out_bytes)])%list, processed_count + 1)
      end
  end.

Fixpoint zip_loop (pct : option Z) (fixed : option (Z * Z)) (w h : option Z)
    (keep_ratio : bool) (quality : Z) (out_fmt : string)
    (st : zip_state) (files : list UploadFile) : M zip_state :=
  match files with
  | [] => ret st
  | f :: rest =>
      st' <- zip_one pct fixed w h keep_ratio quality out_fmt st f ;;
      zip_loop pct fixed w h keep_ratio quality out_fmt st' rest
  end.

Definition process_zip (files : list UploadFile) (width height preset : option string)
    (keep_ratio : bool) (quality : Z) (out_format : string) : M Response :=
  match files with
  | [] => raise (HTTPException 400 "No files uploaded.")
  | _ =>
      let out_fmt := _normalize_format out_format in
      if String.eqb out_fmt "" then
        raise (HTTPException 400 "Output format must be JPG, PNG, or WEBP.")
      else
        let w := _parse_int width in
        let h := _parse_int height in
        let '(pct, fixed) := preset_of_form preset in
        '(zf, processed_count) <-
          zip_loop pct fixed w h keep_ratio quality out_fmt ([], 0) files ;;
        if processed_count =? 0 then
          raise (HTTPException 400 "All uploaded files were empty or invalid.")
        else
          ret {| resp_body := ZipBody zf;
                 media_type := "application/zip";
                 headers :=
                   [("Content-Disposition",
                     "attachment; filename=" ++ dquote ++ "processed_images.zip" ++ dquote)];
                 resp_status := 200 |}
  end.

End WithImaging.

End Main.

(** ** A small imaging library, for closed examples

    A file is the byte [I], then width and height as two big-endian bytes
    each; anything else does not decode.  An encoded image is a format
    letter, the encoder parameter and the size. *)

Module Toy.

Import Main.
Local Open Scope string_scope.
Local Open Scope Z_scope.

Record raster : Type := {
  r_size : Z * Z;
  r_mode : string;
  r_transparency : bool
}.

Definition be16 (hi lo : Byte.byte) : Z :=
  256 * Z.of_N (Byte.to_N hi) + Z.of_N (Byte.to_N lo).

Definition byte_of (n : Z) : Byte.byte :=
  match Byte.of_N (Z.to_N (n mod 256)) with
  | Some b => b
  | None => Byte.x00
  end.

Definition toy_open (data : bytes) : option raster :=
  match data with
  | Byte.x49 :: w1 :: w0 :: h1 :: h0 :: _ =>
      Some {| r_size := (be16 w1 w0, be16 h1 h0);
              r_mode := "RGB";
              r_transparency := false |}
  | _ => None
  end.

Definition toy_file (w h : Z) : bytes :=
  [Byte.x49; byte_of (w / 256); byte_of w; byte_of (h / 256); byte_of h].

Definition toy_save (img : raster) (args : save_args) : bytes :=
  let '(w, h) := r_size img in
  let dims := [byte_of (w / 256); byte_of w; byte_of (h / 256); byte_of h] in
  match args with
  | SaveJPEG q _ _ => Byte.x4a :: byte_of q :: dims
  | SaveWEBP q _ => Byte.x57 :: byte_of q :: dims
  | SavePNG _ level => Byte.x50 :: byte_of level :: dims
  end.

#[export] Instance toy_imaging : Imaging := {|
  image := raster;
  image_open := toy_open;
  open_error := fun _ => "cannot identify image file";
  size := r_size;
  mode := r_mode;
  has_transparency := r_transparency;
  resize_lanczos := fun img sz =>
    {| r_size := sz; r_mode := r_mode img; r_transparency := r_transparency img |};
  convert := fun img m =>
    {| r_size := r_size img; r_mode := m; r_transparency := false |};
  flatten_on_white := fun img =>
    {| r_size := r_size img; r_mode := "RGB"; r_transparency := false |};
  save := toy_save
|}.

Definition upload (name : string) (data : bytes) : UploadFile :=
  {| filename := Some name; content := data |}.

(** Sample uploads. *)
Definition photo : UploadFile := upload "holiday/photo.png" (toy_file 800 600).
Definition square : UploadFile := upload "photo.gif" (toy_file 1000 1000).
Definition blank : UploadFile := upload "blank.png" [].
Definition garbage : UploadFile := upload "notes.txt" [Byte.x68; Byte.x69].

Definition photo_raster : raster :=
  {| r_size := (800, 600); r_mode := "RGB"; r_transparency := false |}.

Definition square_raster : raster :=
  {| r_size := (1000, 1000); r_mode := "RGB"; r_transparency := false |}.

(** The answer to the batch [photo; square; blank; photo] as JPEG. *)
Definition three_photos_response : Response :=
  {| resp_body :=
       ZipBody [("photo.jpg", toy_save photo_raster (SaveJPEG 85 true true));
                ("photo_2.jpg", toy_save square_raster (SaveJPEG 85 true true));
                ("photo_3.jpg", toy_save photo_raster (SaveJPEG 85 true true))];
     media_type := "application/zip";
     headers := [("Content-Disposition",
                  "attachment; filename=" ++ dquote ++ "processed_images.zip" ++ dquote)];
     resp_status := 200 |}.

End Toy.

(** ** The specification's own formulations *)

Module Spec.

Import PyNum PyStr Main.
Local Open Scope string_scope.
Local Open Scope Z_scope.

(** The effort level as the specification writes it, in exact arithmetic:
    [round((100 - quality) * 9 / 90)] clamped to [[0, 9]]. *)
Definition effort_level (quality : Z) : Z :=
  Z.max 0 (Z.min 9 (round_half_even ((100 - quality) * 9) 90)).

(** [round] with halves going up, on the fraction [n/d] with [0 < d]. *)
Definition round_half_up (n d : Z) : Z := (2 * n + d) / (2 * d).

(** The percentage target as the specification writes it, in exact
    arithmetic under a rounding of one's choice:
    [round(original * P / 100)], at least 1. *)
Definition percentage_target (round : Z -> Z -> Z) (n pct : Z) : Z :=
  Z.max 1 (round (n * pct) 100).

(** The statement that, under a percentage preset, every file that decodes
    is given that target on both axes. *)
Definition percentage_preset_exact (round : Z -> Z -> Z) : Prop :=
  forall (imaging : Imaging) (preset : option string) (pct : Z)
         (fixed : option (Z * Z)) (w h : option Z) (data : bytes) (im : image)
         (ow oh : Z) (log : list event),
    preset_of_form preset = (Some pct, fixed) ->
    image_open data = Some im -> size im = (ow, oh) ->
    batch_dims (Some pct) fixed w h data log
    = (Ok (Some (Some (percentage_target round ow pct),
                 Some (percentage_target round oh pct))),
       (log ++ [EvOpen data])%list).

(** The closed set of output formats. *)
Inductive OutputFormat : Type := JPEG | PNG | WEBP.

(** The format a request names: trimmed, case-insensitive, with the
    alias [jpg]. *)
Definition output_format_of (s : string) : option OutputFormat :=
  let t := lower (strip s) in
  if String.eqb t "jpg" then Some JPEG
  else if String.eqb t "jpeg" then Some JPEG
  else if String.eqb t "png" then Some PNG
  else if String.eqb t "webp" then Some WEBP
  else None.
(** A positive number written in decimal digits. *)
Fixpoint digits_only (s : string) : bool :=
  match s with
  | EmptyString => true
  | String c s' => is_digit c && digits_only s'
  end.

Fixpoint decimal_value (acc : Z) (s : string) : Z :=
  match s with
  | EmptyString => acc
  | String c s' => decimal_value (10 * acc + (code c - 48)) s'
  end.

Definition positive_number (s : string) : bool :=
  match s with
  | EmptyString => false
  | _ => digits_only s && (0 <? decimal_value 0 s)%Z
  end.

(** A well-formed preset token, white space around it aside: [NNN%] with a
    positive percentage, or [WxH] with positive dimensions. *)
Definition well_formed_preset (token : string) : bool :=
  let token := strip token in
  (endswith "%" token && positive_number (drop_last token))
  || match split_once "x" token with
     | Some (a, b) => positive_number a && positive_number b
     | None => false
     end.

(** The statement that any other token counts as no preset and leaves the
    request as it would be without one. *)
Definition malformed_preset_is_no_preset : Prop :=
  forall (imaging : Imaging) (files : list UploadFile) (width height : option string)
         (preset : string) (keep_ratio : bool) (quality : Z) (out_format : string),
    well_formed_preset preset = false ->
    preset_of_form (Some preset) = (None, None)
    /\ run (process_zip files width height (Some preset) keep_ratio quality out_format)
       = run (process_zip files width height None keep_ratio quality out_format).

(** The tokens the batch endpoint reads as a percentage: an [int()] literal
    with a positive value, then a percent sign. *)
Definition percentage_form (token : string) : Prop :=
  exists a p, token = a ++ "%" /\ py_int a = Some p /\ 0 < p.

(** The tokens it can read as dimensions: two [int()] literals around an
    [x]. *)
Definition dimensions_form (token : string) : Prop :=
  exists a b wv hv, token = a ++ "x" ++ b /\ py_int a = Some wv /\ py_int b = Some hv.
End Spec.

(** ** Notions used to state the batch properties *)

Module Batch.

Import PyNum PyStr Main.
Local Open Scope string_scope.
Local Open Scope Z_scope.

Section WithImaging.
Context {imaging : Imaging}.

(** The files of a batch that reach the archive when the request succeeds:
    those with a body that, under a percentage preset, also decodes. *)
Definition kept (pct : option Z) (f : UploadFile) : bool :=
  match content f with
  | [] => false
  | _ :: _ =>
      match pct with
      | None => true
      | Some _ => match image_open (content f) with Some _ => true | None => false end
      end
  end.

(** A file that cannot contribute an output: an empty body, or bytes that do
    not decode. *)
Definition unusable (f : UploadFile) : Prop :=
  content f = [] \/ image_open (content f) = None.

End WithImaging.

(** The base name of the output of [f], the [index]-th file written. *)
Definition base_name_of (f : UploadFile) (index : Z) : string :=
  fst (_split_name_ext (_clean_filename (str_or (filename f) ("image_" ++ py_str index)))).

End Batch.


(** ** Notions used to state further properties *)

Module Shape.

Import PyStr.

(** Every character of [s] satisfies [p]. *)
Fixpoint all_chars (p : ascii -> bool) (s : string) : bool :=
  match s with
  | EmptyString => true
  | String c s' => p c && all_chars p s'
  end.

(** No two underscores of [s] are adjacent; [after_us] says an underscore
    comes just before [s]. *)
Fixpoint spaced_underscores (after_us : bool) (s : string) : bool :=
  match s with
  | EmptyString => true
  | String c s' =>
      if Ascii.eqb c "_" then negb after_us && spaced_underscores true s'
      else spaced_underscores false s'
  end.
End Shape.

Module Pipeline.

Local Open Scope string_scope.
Local Open Scope Z_scope.

(** Encoder arguments the service may pass: a quality in [[10, 100]] with the
    fixed options of each format, or a PNG effort level in [[0, 9]]. *)
Definition args_in_range (args : save_args) : Prop :=
  match args with
  | SaveJPEG q optimize progressive =>
      10 <= q <= 100 /\ optimize = true /\ progressive = true
  | SaveWEBP q method => 10 <= q <= 100 /\ method = 6
  | SavePNG optimize level => optimize = true /\ 0 <= level <= 9
  end.

(** The uploads a log shows as read, in order. *)
Definition reads (log : list event) : list UploadFile :=
  flat_map (fun ev => match ev with EvRead f => [f] | _ => [] end) log.

(** The archive entries a log shows as written, in order. *)
Definition writes (log : list event) : list (string * bytes) :=
  flat_map (fun ev => match ev with EvWrite n d => [(n, d)] | _ => [] end) log.

(** What the service relies on from the imaging library: converting gives the
    mode asked for, flattening gives RGB, neither changes the size, and
    resizing gives the size asked for. *)
Class ImagingLaws {imaging : Imaging} : Prop := {
  mode_convert : forall img m, mode (convert img m) = m;
  mode_flatten : forall img, mode (flatten_on_white img) = "RGB";
  size_convert : forall img m, size (convert img m) = size img;
  size_flatten : forall img, size (flatten_on_white img) = size img;
  size_resize : forall img sz, size (resize_lanczos img sz) = sz
}.

End Pipeline.

(** Checking a decidable property on an integer interval by enumeration. *)
Definition interval (lo : Z) (n : nat) : list Z :=
  map (fun i => lo + Z.of_nat i) (seq 0 n).

(** * Properties *)

Import PyNum PyStr Main Batch Spec.
Local Open Scope Z_scope.

(** ** Rounding *)

Lemma round_half_even_near (n d : Z) :
  0 < d -> - d <= 2 * (round_half_even n d * d - n) <= d.
Proof.
  intros Hd. unfold round_half_even.
  pose proof (Z.div_mod n d ltac:(lia)) as Hdm.
  pose proof (Z.mod_pos_bound n d Hd) as Hr.
  destruct (Z.compare_spec (2 * (n mod d)) d) as [He | Hl | Hg].
  - destruct (Z.even (n / d)); nia.
  - nia.
  - nia.
Qed.

Lemma scaled_pos (n d e : Z) :
  0 < n -> 0 < d -> 0 < fst (scaled n d e) /\ 0 < snd (scaled n d e).
Proof.
  intros Hn Hd. unfold scaled.
  destruct (0 <=? e) eqn:He; cbn [fst snd].
  - apply Z.leb_le in He. pose proof (Z.pow_pos_nonneg 2 e ltac:(lia) He). nia.
  - apply Z.leb_gt in He. pose proof (Z.pow_pos_nonneg 2 (- e) ltac:(lia) ltac:(lia)). nia.
Qed.

Lemma pow2_split (a b : Z) : 0 <= a -> 0 <= b -> 2 ^ (a + b) = 2 ^ a * 2 ^ b.
Proof. intros. apply Z.pow_add_r; assumption. Qed.

(** The scaled significand reaches [2^52]. *)
Lemma binade_lower (n d : Z) :
  0 < n -> 0 < d ->
  2 ^ 52 * snd (scaled n d (binade n d)) <= fst (scaled n d (binade n d)).
Proof.
  intros Hn Hd. unfold binade.
  set (e0 := Z.log2 n - Z.log2 d - 53).
  destruct (scaled n d e0) as [num0 den0] eqn:Hs0.
  pose proof (Z.log2_spec n Hn) as [Hn1 Hn2].
  pose proof (Z.log2_spec d Hd) as [Hd1 Hd2].
  pose proof (Z.log2_nonneg n) as Hln.
  pose proof (Z.log2_nonneg d) as Hld.
  pose proof (scaled_pos n d e0 Hn Hd) as [Hp1 Hp2]. rewrite Hs0 in Hp1, Hp2. cbn in Hp1, Hp2.
  destruct (2 ^ 53 <=? num0 / den0) eqn:Hc.
  - apply Z.leb_le in Hc.
    assert (Hfl : 2 ^ 53 * den0 <= num0).
    { pose proof (Z.mul_div_le num0 den0 Hp2). nia. }
    unfold scaled in *.
    destruct (0 <=? e0) eqn:He0.
    + apply Z.leb_le in He0. injection Hs0 as <- <-.
      replace (0 <=? e0 + 1) with true by (symmetry; apply Z.leb_le; lia).
      cbn [fst snd]. rewrite (pow2_split e0 1) by lia.
      change (2 ^ 1) with 2. change (2 ^ 53) with (2 ^ 52 * 2) in Hfl. nia.
    + apply Z.leb_gt in He0. injection Hs0 as <- <-.
      destruct (0 <=? e0 + 1) eqn:He1; cbn [fst snd].
      * apply Z.leb_le in He1. assert (e0 = -1) by lia. subst e0.
        replace (Z.log2 n - Z.log2 d - 53 + 1) with 0 in * by lia.
        replace (- (Z.log2 n - Z.log2 d - 53)) with 1 in * by lia.
        change (2 ^ 1) with 2 in Hfl. change (2 ^ 0) with 1.
        change (2 ^ 53) with (2 ^ 52 * 2) in Hfl. nia.
      * apply Z.leb_gt in He1.
        replace (- e0) with (- (e0 + 1) + 1) in Hfl by lia.
        rewrite (pow2_split (- (e0 + 1)) 1) in Hfl by lia.
        change (2 ^ 1) with 2 in Hfl. change (2 ^ 53) with (2 ^ 52 * 2) in Hfl. nia.
  - clear Hc. unfold scaled in *.
    destruct (0 <=? e0) eqn:He0; cbn [fst snd].
    + apply Z.leb_le in He0.
      (* 2^52 * d * 2^e0 < 2^52 * 2^(ld+1) * 2^e0 = 2^ln <= n *)
      assert (Hpow : 2 ^ 52 * 2 ^ (Z.succ (Z.log2 d)) * 2 ^ e0 = 2 ^ Z.log2 n).
      { rewrite <- !Z.pow_add_r by lia. f_equal. unfold e0. lia. }
      pose proof (Z.pow_pos_nonneg 2 e0 ltac:(lia) He0).
      nia.
    + apply Z.leb_gt in He0.
      assert (Hpow : 2 ^ Z.log2 n * 2 ^ (- e0) = 2 ^ 52 * 2 ^ (Z.succ (Z.log2 d))).
      { rewrite <- !Z.pow_add_r by lia. f_equal. unfold e0. lia. }
      pose proof (Z.pow_pos_nonneg 2 (- e0) ltac:(lia) ltac:(lia)).
      nia.
Qed.

Lemma inject_Z_pow2_pos (e : Z) : 0 <= e -> (0 < inject_Z (2 ^ e))%Q.
Proof.
  intros He. change 0%Q with (inject_Z 0). rewrite <- Zlt_Qlt.
  apply Z.pow_pos_nonneg; lia.
Qed.

Lemma fl_pos_bounds (n d : Z) :
  0 < n -> 0 < d ->
  (inject_Z n / inject_Z d * (1 - u53) <= fl_pos n d
   /\ fl_pos n d <= inject_Z n / inject_Z d * (1 + u53))%Q.
Proof.
  intros Hn Hd. unfold fl_pos.
  pose proof (binade_lower n d Hn Hd) as Hlow.
  pose proof (scaled_pos n d (binade n d) Hn Hd) as [Hp1 Hp2].
  set (e := binade n d) in *.
  destruct (scaled n d e) as [num den] eqn:Hs. cbn [fst snd] in *.
  pose proof (round_half_even_near num den Hp2) as Hnear.
  set (m := round_half_even num den) in *.
  assert (Hdq : (0 < inject_Z d)%Q) by (change 0%Q with (inject_Z 0); rewrite <- Zlt_Qlt; lia).
  set (x := (inject_Z n / inject_Z d)%Q).
  assert (Hx : (x * inject_Z d == inject_Z n)%Q).
  { unfold x. field. intro H0. rewrite H0 in Hdq. apply (Qlt_irrefl 0). exact Hdq. }
  unfold scaled, pow2 in *.
  destruct (0 <=? e) eqn:He.
  - apply Z.leb_le in He. injection Hs as <- <-.
    pose proof (inject_Z_pow2_pos e He) as Hpq.
    assert (H1 : (inject_Z (2 ^ 52) * (inject_Z d * inject_Z (2 ^ e)) <= inject_Z n)%Q).
    { rewrite <- !inject_Z_mult. rewrite <- Zle_Qle. exact Hlow. }
    assert (H2 : (- (inject_Z d * inject_Z (2 ^ e))
                  <= 2 * (inject_Z m * (inject_Z d * inject_Z (2 ^ e)) - inject_Z n))%Q).
    { change 2%Q with (inject_Z 2). rewrite <- !inject_Z_mult, <- inject_Z_opp.
      unfold Qminus. rewrite <- inject_Z_opp, <- inject_Z_plus, <- inject_Z_mult.
      rewrite <- Zle_Qle. lia. }
    assert (H3 : (2 * (inject_Z m * (inject_Z d * inject_Z (2 ^ e)) - inject_Z n)
                  <= inject_Z d * inject_Z (2 ^ e))%Q).
    { change 2%Q with (inject_Z 2). rewrite <- !inject_Z_mult.
      unfold Qminus. rewrite <- inject_Z_opp, <- inject_Z_plus, <- inject_Z_mult.
      rewrite <- Zle_Qle. lia. }
    change (inject_Z (2 ^ 52)) with (4503599627370496 # 1)%Q in H1.
    unfold u53.
    set (pq := inject_Z (2 ^ e)) in *. set (mq := inject_Z m) in *.
    set (nq := inject_Z n) in *. set (dq := inject_Z d) in *.
    clearbody pq mq nq dq x.
    split; nra.
  - apply Z.leb_gt in He. injection Hs as <- <-.
    pose proof (inject_Z_pow2_pos (- e) ltac:(lia)) as Hpq.
    assert (Hpz : 0 < 2 ^ (- e)) by (apply Z.pow_pos_nonneg; lia).
    assert (Hr : ((1 # Z.to_pos (2 ^ (- e))) * inject_Z (2 ^ (- e)) == 1)%Q).
    { unfold Qeq, Qmult, inject_Z. cbn [Qnum Qden].
      rewrite Pos.mul_1_r, Z.mul_1_l, Z.mul_1_r, Z.mul_1_l.
      rewrite Z2Pos.id by exact Hpz. reflexivity. }
    assert (H1 : (inject_Z (2 ^ 52) * inject_Z d <= inject_Z n * inject_Z (2 ^ (- e)))%Q).
    { rewrite <- !inject_Z_mult. rewrite <- Zle_Qle. exact Hlow. }
    assert (H2 : (- inject_Z d
                  <= 2 * (inject_Z m * inject_Z d - inject_Z n * inject_Z (2 ^ (- e))))%Q).
    { change 2%Q with (inject_Z 2). rewrite <- !inject_Z_mult, <- inject_Z_opp.
      unfold Qminus. rewrite <- inject_Z_opp, <- inject_Z_plus, <- inject_Z_mult.
      rewrite <- Zle_Qle. lia. }
    assert (H3 : (2 * (inject_Z m * inject_Z d - inject_Z n * inject_Z (2 ^ (- e)))
                  <= inject_Z d)%Q).
    { change 2%Q with (inject_Z 2). rewrite <- !inject_Z_mult.
      unfold Qminus. rewrite <- inject_Z_opp, <- inject_Z_plus, <- inject_Z_mult.
      rewrite <- Zle_Qle. lia. }
    change (inject_Z (2 ^ 52)) with (4503599627370496 # 1)%Q in H1.
    unfold u53.
    set (r := (1 # Z.to_pos (2 ^ (- e)))%Q) in *.
    set (pq := inject_Z (2 ^ (- e))) in *. set (mq := inject_Z m) in *.
    set (nq := inject_Z n) in *. set (dq := inject_Z d) in *.
    clearbody r pq mq nq dq x.
    assert (Hm : (mq == mq * r * pq)%Q) by nra.
    assert (Hz : (0 < dq * pq)%Q) by nra.
    split.
    + assert (0 <= (dq * pq) * (mq * r - x * (1 - (1 # 9007199254740992))))%Q by nra.
      nra.
    + assert (0 <= (dq * pq) * (x * (1 + (1 # 9007199254740992)) - mq * r))%Q by nra.
      nra.
Qed.

Lemma fl_bounds (x : Q) :
  (0 <= x)%Q -> (x * (1 - u53) <= fl x /\ fl x <= x * (1 + u53))%Q.
Proof.
  intros Hx. destruct x as [n d]. unfold fl. cbn [Qnum Qden].
  destruct n as [| p | p].
  - split; unfold Qle, Qmult, Qminus, Qplus; cbn; lia.
  - pose proof (fl_pos_bounds (Zpos p) (Zpos d) ltac:(lia) ltac:(lia)) as [H1 H2].
    rewrite <- Qmake_Qdiv in H1, H2. split; assumption.
  - exfalso. unfold Qle in Hx. cbn in Hx. lia.
Qed.

Lemma fl_nonneg (x : Q) : (0 <= x)%Q -> (0 <= fl x)%Q.
Proof.
  intros Hx. pose proof (fl_bounds x Hx) as [H1 _]. unfold u53 in H1. nra.
Qed.

Lemma py_round_near (x : Q) :
  (inject_Z (py_round x) - (1 # 2) <= x /\ x <= inject_Z (py_round x) + (1 # 2))%Q.
Proof.
  destruct x as [n d]. unfold py_round. cbn [Qnum Qden].
  pose proof (round_half_even_near n (Zpos d) ltac:(lia)) as Hnear.
  set (m := round_half_even n (Zpos d)) in *. clearbody m.
  unfold Qle, Qminus, Qplus, Qopp, Qmult, inject_Z. cbn [Qnum Qden].
  rewrite ?Pos2Z.inj_mul. split; nia.
Qed.

Lemma py_round_le (x : Q) (k : Z) :
  (x < inject_Z k + (1 # 2))%Q -> py_round x <= k.
Proof.
  intros H. pose proof (py_round_near x) as [H1 _].
  assert (Hlt : (inject_Z (py_round x) < inject_Z (k + 1))%Q).
  { rewrite inject_Z_plus. change (inject_Z 1) with 1%Q. lra. }
  rewrite <- Zlt_Qlt in Hlt. lia.
Qed.

Lemma py_round_ge (x : Q) (k : Z) :
  (inject_Z k - (1 # 2) < x)%Q -> k <= py_round x.
Proof.
  intros H. pose proof (py_round_near x) as [_ H2].
  assert (Hlt : (inject_Z (k - 1) < inject_Z (py_round x))%Q).
  { unfold Z.sub. rewrite inject_Z_plus, inject_Z_opp. change (inject_Z 1) with 1%Q. lra. }
  rewrite <- Zlt_Qlt in Hlt. lia.
Qed.


Lemma scale_dim_bounds (n t : Z) (scale lo hi : Q) :
  1 <= n -> 1 <= t <= 20000 ->
  (0 <= lo)%Q -> (lo <= scale)%Q -> (scale <= hi)%Q ->
  (inject_Z t * (1 - u53) <= lo * inject_Z n)%Q ->
  (hi * inject_Z n <= inject_Z t * (1 + u53))%Q ->
  scale_dim n scale = t.
Proof.
  intros Hn Ht Hlo0 Hlo Hhi Hlot Hhit. unfold scale_dim, float_mul, float_of_int.
  assert (Hnq : (1 <= inject_Z n)%Q) by (change 1%Q with (inject_Z 1); rewrite <- Zle_Qle; lia).
  assert (Htq1 : (1 <= inject_Z t)%Q) by (change 1%Q with (inject_Z 1); rewrite <- Zle_Qle; lia).
  assert (Htq2 : (inject_Z t <= 20000)%Q) by (change 20000%Q with (inject_Z 20000); rewrite <- Zle_Qle; lia).
  pose proof (fl_bounds (inject_Z n) ltac:(lra)) as [Hf1 Hf2].
  set (fn := fl (inject_Z n)) in *.
  assert (Hfn0 : (0 <= fn)%Q) by (unfold u53 in *; nra).
  assert (Hp0 : (0 <= fn * scale)%Q) by nra.
  pose proof (fl_bounds (fn * scale) Hp0) as [Hg1 Hg2].
  set (y := fl (fn * scale)) in *.
  remember (inject_Z n) as nq eqn:Enq. remember (inject_Z t) as tq eqn:Etq.
  clearbody y fn.
  assert (Hlow : (tq * (1 - u53) * (1 - u53) <= fn * scale)%Q).
  { unfold u53 in *. nra. }
  assert (Hupp : (fn * scale <= tq * (1 + u53) * (1 + u53))%Q).
  { unfold u53 in *. nra. }
  assert (Hy1 : (tq - (1 # 2) < y)%Q) by (unfold u53 in *; nra).
  assert (Hy2 : (y < tq + (1 # 2))%Q) by (unfold u53 in *; nra).
  subst tq.
  pose proof (py_round_le y t Hy2). pose proof (py_round_ge y t Hy1). lia.
Qed.

Lemma scale_dim_under (n t : Z) (scale : Q) :
  1 <= n -> 1 <= t <= 20000 ->
  (0 <= scale)%Q ->
  (scale * inject_Z n <= inject_Z t * (1 + u53))%Q ->
  1 <= scale_dim n scale <= t.
Proof.
  intros Hn Ht Hs0 Hhit. unfold scale_dim, float_mul, float_of_int.
  assert (Hnq : (1 <= inject_Z n)%Q) by (change 1%Q with (inject_Z 1); rewrite <- Zle_Qle; lia).
  assert (Htq1 : (1 <= inject_Z t)%Q) by (change 1%Q with (inject_Z 1); rewrite <- Zle_Qle; lia).
  assert (Htq2 : (inject_Z t <= 20000)%Q) by (change 20000%Q with (inject_Z 20000); rewrite <- Zle_Qle; lia).
  pose proof (fl_bounds (inject_Z n) ltac:(lra)) as [Hf1 Hf2].
  set (fn := fl (inject_Z n)) in *.
  assert (Hfn0 : (0 <= fn)%Q) by (unfold u53 in *; nra).
  assert (Hp0 : (0 <= fn * scale)%Q) by nra.
  pose proof (fl_bounds (fn * scale) Hp0) as [Hg1 Hg2].
  set (y := fl (fn * scale)) in *.
  remember (inject_Z n) as nq eqn:Enq. remember (inject_Z t) as tq eqn:Etq.
  clearbody y fn.
  assert (Hupp : (fn * scale <= tq * (1 + u53) * (1 + u53))%Q).
  { unfold u53 in *. nra. }
  assert (Hy2 : (y < tq + (1 # 2))%Q) by (unfold u53 in *; nra).
  subst tq. pose proof (py_round_le y t Hy2). lia.
Qed.

Lemma int_truediv_bounds (a b : Z) :
  0 <= a -> 1 <= b ->
  (0 <= int_truediv a b
   /\ inject_Z a * (1 - u53) <= int_truediv a b * inject_Z b
   /\ int_truediv a b * inject_Z b <= inject_Z a * (1 + u53))%Q.
Proof.
  intros Ha Hb. unfold int_truediv.
  assert (Hbq : (1 <= inject_Z b)%Q) by (change 1%Q with (inject_Z 1); rewrite <- Zle_Qle; lia).
  assert (Haq : (0 <= inject_Z a)%Q) by (change 0%Q with (inject_Z 0); rewrite <- Zle_Qle; lia).
  set (x := (inject_Z a / inject_Z b)%Q).
  assert (Hx : (x * inject_Z b == inject_Z a)%Q).
  { unfold x. field. intro H0. rewrite H0 in Hbq. lra. }
  assert (Hx0 : (0 <= x)%Q).
  { set (aq := inject_Z a) in *. set (bq := inject_Z b) in *. clearbody aq bq x. nra. }
  pose proof (fl_bounds x Hx0) as [H1 H2].
  pose proof (fl_nonneg x Hx0) as H0.
  set (y := fl x) in *.
  set (aq := inject_Z a) in *. set (bq := inject_Z b) in *. clearbody aq bq x y.
  unfold u53 in *. repeat split; nra.
Qed.

Lemma float_min_cases (a b : Q) :
  (float_min a b = a /\ (a <= b)%Q) \/ (float_min a b = b /\ (b <= a)%Q).
Proof.
  unfold float_min. destruct (b ?= a)%Q eqn:Hc.
  - left. split; [reflexivity |]. apply Qeq_alt in Hc. rewrite Hc. apply Qle_refl.
  - right. split; [reflexivity |]. apply Qlt_alt in Hc. apply Qlt_le_weak. exact Hc.
  - left. split; [reflexivity |]. apply Qgt_alt in Hc. apply Qlt_le_weak. exact Hc.
Qed.

(** C1. With both target dimensions set and the aspect ratio kept, the
    resolved size fits inside the target box: neither dimension exceeds its
    target, and one of them reaches it. *)
Theorem fit_inside_box (ow oh tw th : Z) :
  1 <= ow -> 1 <= oh -> 0 < tw <= 20000 -> 0 < th <= 20000 ->
  exists nw nh,
    resolve_size ow oh (Some tw) (Some th) true = Ok (nw, nh)
    /\ nw <= tw /\ nh <= th /\ (nw = tw \/ nh = th).
Proof.
  intros How Hoh Htw Hth. unfold resolve_size, _fit_size_keep_ratio.
  replace (ow =? 0) with false by (symmetry; apply Z.eqb_neq; lia).
  replace (oh =? 0) with false by (symmetry; apply Z.eqb_neq; lia).
  cbn [orb].
  pose proof (int_truediv_bounds tw ow ltac:(lia) How) as (Ha0 & Ha1 & Ha2).
  pose proof (int_truediv_bounds th oh ltac:(lia) Hoh) as (Hb0 & Hb1 & Hb2).
  set (a := int_truediv tw ow) in *. set (b := int_truediv th oh) in *.
  assert (Howq : (1 <= inject_Z ow)%Q) by (change 1%Q with (inject_Z 1); rewrite <- Zle_Qle; lia).
  assert (Hohq : (1 <= inject_Z oh)%Q) by (change 1%Q with (inject_Z 1); rewrite <- Zle_Qle; lia).
  eexists _, _. split; [reflexivity |].
  destruct (float_min_cases a b) as [[-> Hab] | [-> Hba]].
  - assert (Hw : scale_dim ow a = tw).
    { apply (scale_dim_bounds ow tw a a a); try lia; try assumption; apply Qle_refl. }
    assert (Hh : 1 <= scale_dim oh a <= th).
    { apply scale_dim_under; try lia; try assumption.
      apply Qle_trans with (b * inject_Z oh)%Q; [| exact Hb2].
      apply Qmult_le_compat_r; [exact Hab | lra]. }
    lia.
  - assert (Hh : scale_dim oh b = th).
    { apply (scale_dim_bounds oh th b b b); try lia; try assumption; apply Qle_refl. }
    assert (Hw : 1 <= scale_dim ow b <= tw).
    { apply scale_dim_under; try lia; try assumption.
      apply Qle_trans with (a * inject_Z ow)%Q; [| exact Ha2].
      apply Qmult_le_compat_r; [exact Hba | lra]. }
    lia.
Qed.

Lemma inject_Z_nonneg (z : Z) : 0 <= z -> (0 <= inject_Z z)%Q.
Proof. intros H. change 0%Q with (inject_Z 0). rewrite <- Zle_Qle. exact H. Qed.

(** The float product [n * (pct / 100.0)] stays within four roundings of the
    exact value. *)
Lemma pct_product_bounds (n pct : Z) :
  0 <= n -> 0 <= pct ->
  let x := inject_Z (n * pct) in
  let y := float_mul (float_of_int n) (float_div (float_of_int pct) (inject_Z 100)) in
  (x * ((1 - u53) * (1 - u53) * (1 - u53) * (1 - u53)) <= 100 * y
   /\ 100 * y <= x * ((1 + u53) * (1 + u53) * (1 + u53) * (1 + u53)))%Q.
Proof.
  intros Hn Hp x y. subst x y. unfold float_mul, float_div, float_of_int.
  change (inject_Z 100) with 100%Q.
  pose proof (inject_Z_nonneg n Hn) as Hnq. pose proof (inject_Z_nonneg pct Hp) as Hpq.
  rewrite inject_Z_mult.
  pose proof (fl_bounds (inject_Z pct) Hpq) as [Hp1 Hp2].
  pose proof (fl_nonneg (inject_Z pct) Hpq) as Hp0.
  set (fp := fl (inject_Z pct)) in *.
  assert (Ht : (fp / 100 * 100 == fp)%Q) by (field; discriminate).
  set (t := (fp / 100)%Q) in *.
  assert (Ht0 : (0 <= t)%Q) by lra.
  pose proof (fl_bounds t Ht0) as [Hd1 Hd2].
  pose proof (fl_nonneg t Ht0) as Hd0.
  set (d := fl t) in *.
  pose proof (fl_bounds (inject_Z n) Hnq) as [Hn1 Hn2].
  pose proof (fl_nonneg (inject_Z n) Hnq) as Hn0.
  set (fn := fl (inject_Z n)) in *.
  assert (Hm0 : (0 <= fn * d)%Q) by nra.
  pose proof (fl_bounds (fn * d) Hm0) as [Hy1 Hy2].
  set (y := fl (fn * d)) in *.
  set (nq := inject_Z n) in *. set (pq := inject_Z pct) in *.
  clearbody y fn d t fp nq pq. unfold u53 in *.
  assert (Hd1' : (pq * ((1 - (1 # 9007199254740992)) * (1 - (1 # 9007199254740992))) <= 100 * d)%Q) by nra.
  assert (Hd2' : (100 * d <= pq * ((1 + (1 # 9007199254740992)) * (1 + (1 # 9007199254740992))))%Q) by nra.
  assert (Hm1 : (nq * pq * ((1 - (1 # 9007199254740992)) * (1 - (1 # 9007199254740992)) * (1 - (1 # 9007199254740992))) <= 100 * (fn * d))%Q) by nra.
  assert (Hm2 : (100 * (fn * d) <= nq * pq * ((1 + (1 # 9007199254740992)) * (1 + (1 # 9007199254740992)) * (1 + (1 # 9007199254740992))))%Q) by nra.
  split; nra.
Qed.

(** Under a percentage preset a dimension becomes a nearest integer to the
    exact percentage, and at least 1. *)
Lemma pct_dim_nearest (n pct : Z) :
  0 <= n -> 0 <= pct -> n * pct <= 2 ^ 50 ->
  exists r, pct_dim n pct = Z.max 1 r /\ -50 <= 100 * r - n * pct <= 50.
Proof.
  intros Hn Hp Hb. unfold pct_dim, scale_dim.
  pose proof (pct_product_bounds n pct Hn Hp) as [H1 H2]. cbv zeta in H1, H2.
  set (y := float_mul _ _) in *.
  exists (py_round y). split; [reflexivity |].
  pose proof (py_round_near y) as [Hr1 Hr2].
  assert (Hx0 : (0 <= inject_Z (n * pct))%Q) by (apply inject_Z_nonneg; nia).
  assert (Hxb : (inject_Z (n * pct) <= inject_Z (2 ^ 50))%Q) by (rewrite <- Zle_Qle; exact Hb).
  change (inject_Z (2 ^ 50)) with 1125899906842624%Q in Hxb.
  assert (Hlt : (inject_Z (100 * py_round y - n * pct) < inject_Z 51)%Q).
  { unfold Z.sub. rewrite inject_Z_plus, inject_Z_opp, inject_Z_mult.
    change (inject_Z 100) with 100%Q. change (inject_Z 51) with 51%Q.
    set (x := inject_Z (n * pct)) in *. set (r := inject_Z (py_round y)) in *.
    clearbody x r y. unfold u53 in *. nra. }
  assert (Hgt : (inject_Z (-51) < inject_Z (100 * py_round y - n * pct))%Q).
  { unfold Z.sub. rewrite inject_Z_plus, inject_Z_opp, inject_Z_mult.
    change (inject_Z 100) with 100%Q. change (inject_Z (-51)) with (-51 # 1)%Q.
    set (x := inject_Z (n * pct)) in *. set (r := inject_Z (py_round y)) in *.
    clearbody x r y. unfold u53 in *. nra. }
  rewrite <- Zlt_Qlt in Hlt, Hgt. lia.
Qed.

(** Floats of moderate size are inside the binary64 range. *)
Lemma overflows_small (x : Q) :
  (0 <= x)%Q -> (x <= inject_Z (2 ^ 52))%Q -> overflows x = false.
Proof.
  intros H0 Hb. unfold overflows. rewrite (Qabs_pos x H0).
  destruct (Qle_bool float_limit x) eqn:E; [| reflexivity].
  apply Qle_bool_iff in E.
  assert (H : (inject_Z (2 ^ 1024) <= inject_Z (2 ^ 52))%Q)
    by (apply Qle_trans with x; assumption).
  rewrite <- Zle_Qle in H. vm_compute in H. exfalso. apply H. reflexivity.
Qed.

(** Within [2^50] for size * pct, no float of the percentage target
    overflows. *)
Lemma pct_target_in_range (n pct : Z) :
  1 <= n -> 1 <= pct -> n * pct <= 2 ^ 50 -> pct_target n pct = Ok (pct_dim n pct).
Proof.
  intros Hn Hp Hb.
  assert (Hnb : n <= 2 ^ 50) by nia. assert (Hpb : pct <= 2 ^ 50) by nia.
  assert (Hconv : forall z, 0 <= z <= 2 ^ 50 -> overflows (float_of_int z) = false).
  { intros z Hz. unfold float_of_int.
    pose proof (inject_Z_nonneg z ltac:(lia)) as Hz0.
    pose proof (fl_bounds (inject_Z z) Hz0) as [_ H2].
    apply overflows_small; [apply fl_nonneg, Hz0 |].
    assert (Hzb : (inject_Z z <= 1125899906842624)%Q).
    { change 1125899906842624%Q with (inject_Z (2 ^ 50)). rewrite <- Zle_Qle. lia. }
    change (inject_Z (2 ^ 52)) with 4503599627370496%Q.
    set (y := fl (inject_Z z)) in *. set (q := inject_Z z) in *. clearbody y q.
    unfold u53 in *. nra. }
  unfold pct_target. rewrite (Hconv pct), (Hconv n) by lia.
  pose proof (pct_product_bounds n pct ltac:(lia) ltac:(lia)) as [H1 H2]. cbv zeta in H1, H2.
  set (y := float_mul _ _) in *.
  rewrite overflows_small; [reflexivity | |].
  - unfold y, float_mul. apply fl_nonneg.
    apply Qmult_le_0_compat; unfold float_of_int, float_div.
    + apply fl_nonneg, inject_Z_nonneg. lia.
    + apply fl_nonneg. apply Qle_shift_div_l; [reflexivity |].
      rewrite Qmult_0_l. apply fl_nonneg, inject_Z_nonneg. lia.
  - assert (Hxb : (inject_Z (n * pct) <= 1125899906842624)%Q).
    { change 1125899906842624%Q with (inject_Z (2 ^ 50)). rewrite <- Zle_Qle. lia. }
    assert (Hx0 : (0 <= inject_Z (n * pct))%Q) by (apply inject_Z_nonneg; nia).
    change (inject_Z (2 ^ 52)) with 4503599627370496%Q.
    set (x := inject_Z (n * pct)) in *. clearbody x y. unfold u53 in *. nra.
Qed.


(** ** The encoder parameters *)

Lemma interval_In (lo : Z) (n : nat) (q : Z) :
  lo <= q < lo + Z.of_nat n -> In q (interval lo n).
Proof.
  intros H. unfold interval. apply in_map_iff.
  exists (Z.to_nat (q - lo)). split; [lia |].
  apply in_seq. lia.
Qed.

Lemma forallb_interval (P : Z -> bool) (lo : Z) (n : nat) :
  forallb P (interval lo n) = true ->
  forall q, lo <= q < lo + Z.of_nat n -> P q = true.
Proof.
  intros H q Hq. rewrite forallb_forall in H. apply H, interval_In, Hq.
Qed.

Section Encoder.
Context {imaging : Imaging}.

Lemma png_level_table :
  forallb (fun q => png_compress_level q =? Spec.effort_level q) (interval 10 91) = true.
Proof. vm_compute. reflexivity. Qed.

Lemma png_level_steps :
  forallb (fun q => png_compress_level (q + 1) <=? png_compress_level q) (interval 10 90) = true.
Proof. vm_compute. reflexivity. Qed.

Lemma png_level_antitone_nat (k : nat) (q : Z) :
  10 <= q -> q + Z.of_nat k <= 100 ->
  png_compress_level (q + Z.of_nat k) <= png_compress_level q.
Proof.
  induction k as [| k IH]; intros Hq Hk.
  - replace (q + Z.of_nat 0) with q by lia. lia.
  - pose proof (forallb_interval _ _ _ png_level_steps (q + Z.of_nat k) ltac:(lia)) as Hs.
    cbv beta in Hs. apply Z.leb_le in Hs.
    replace (q + Z.of_nat (S k)) with (q + Z.of_nat k + 1) by lia.
    specialize (IH Hq ltac:(lia)). lia.
Qed.

(** C5. For a quality in [[10, 100]] the PNG branch encodes with the effort
    level [round((100 - q) * 9 / 90)] clamped to [[0, 9]]: 0 at quality 100,
    9 at quality 10, and never larger for a larger quality. *)
Theorem png_effort_mapping (img : image) (q : Z) :
  10 <= q <= 100 ->
  _save_image img "png" q = Ok (save img (SavePNG true (Spec.effort_level q)))
  /\ png_compress_level q = Spec.effort_level q
  /\ 0 <= png_compress_level q <= 9
  /\ png_compress_level 100 = 0
  /\ png_compress_level 10 = 9
  /\ (forall q', q <= q' <= 100 -> png_compress_level q' <= png_compress_level q).
Proof.
  intros Hq.
  assert (Htab : forall r, 10 <= r <= 100 -> png_compress_level r = Spec.effort_level r).
  { intros r Hr. apply Z.eqb_eq.
    apply (forallb_interval _ _ _ png_level_table r). lia. }
  split; [| split; [| split; [| split; [| split]]]].
  - unfold _save_image. cbn [String.eqb Ascii.eqb Bool.eqb].
    replace (Z.max 10 (Z.min 100 q)) with q by lia.
    rewrite (Htab q Hq). reflexivity.
  - apply Htab, Hq.
  - unfold png_compress_level. lia.
  - vm_compute. reflexivity.
  - vm_compute. reflexivity.
  - intros q' Hq'.
    replace q' with (q + Z.of_nat (Z.to_nat (q' - q))) by lia.
    apply png_level_antitone_nat; lia.
Qed.

(** C8. Whatever the image and the format, a requested quality below 10
    encodes exactly as quality 10 does, and one above 100 exactly as quality
    100 does: the quality is clamped to [[10, 100]] before the encoder sees
    it. *)
Theorem quality_is_clamped (img : image) (out_fmt : string) (q : Z) :
  (q < 10 -> _save_image img out_fmt q = _save_image img out_fmt 10)
  /\ (100 < q -> _save_image img out_fmt q = _save_image img out_fmt 100).
Proof.
  split; intros Hq; unfold _save_image.
  - replace (Z.max 10 (Z.min 100 q)) with (Z.max 10 (Z.min 100 10)) by lia. reflexivity.
  - replace (Z.max 10 (Z.min 100 q)) with (Z.max 10 (Z.min 100 100)) by lia. reflexivity.
Qed.

End Encoder.

(** ** Request parsing *)

Local Open Scope string_scope.

Lemma unsupported_normalizes_empty (s : string) :
  Spec.output_format_of s = None -> _normalize_format s = "".
Proof.
  unfold Spec.output_format_of, _normalize_format.
  destruct (String.eqb (lower (strip s)) "jpg"); [discriminate |].
  destruct (String.eqb (lower (strip s)) "jpeg"); [discriminate |].
  destruct (String.eqb (lower (strip s)) "png"); [discriminate |].
  destruct (String.eqb (lower (strip s)) "webp"); [discriminate |].
  reflexivity.
Qed.

(** ** Stripping *)

Lemma rstrip_by_cons (p : ascii -> bool) (c : ascii) (s : string) :
  rstrip_by p (String c s)
  = match rstrip_by p s with
    | EmptyString => if p c then EmptyString else String c EmptyString
    | t => String c t
    end.
Proof. reflexivity. Qed.

Lemma rstrip_by_idem (p : ascii -> bool) (s : string) :
  rstrip_by p (rstrip_by p s) = rstrip_by p s.
Proof.
  induction s as [| c s IH]; [reflexivity |].
  rewrite rstrip_by_cons. destruct (rstrip_by p s) as [| d t] eqn:Hr.
  - destruct (p c) eqn:Hc; [reflexivity |].
    rewrite rstrip_by_cons. cbn [rstrip_by]. rewrite Hc. reflexivity.
  - rewrite rstrip_by_cons, IH. reflexivity.
Qed.

Lemma rstrip_by_head (p : ascii -> bool) (c : ascii) (s : string) :
  p c = false -> exists t, rstrip_by p (String c s) = String c t.
Proof.
  intros Hc. cbn [rstrip_by]. destruct (rstrip_by p s) as [| d t].
  - rewrite Hc. eexists. reflexivity.
  - eexists. reflexivity.
Qed.

Lemma lstrip_by_head (p : ascii -> bool) (s : string) :
  lstrip_by p s = EmptyString
  \/ exists c t, lstrip_by p s = String c t /\ p c = false.
Proof.
  induction s as [| c s IH]; [left; reflexivity |].
  cbn [lstrip_by]. destruct (p c) eqn:Hc; [exact IH |].
  right. exists c, s. split; [reflexivity | exact Hc].
Qed.

Lemma strip_by_idem (p : ascii -> bool) (s : string) :
  rstrip_by p (lstrip_by p (rstrip_by p (lstrip_by p s)))
  = rstrip_by p (lstrip_by p s).
Proof.
  destruct (lstrip_by_head p s) as [-> | (c & t & -> & Hc)]; [reflexivity |].
  destruct (rstrip_by_head p c t Hc) as [t' Ht'].
  rewrite Ht'. cbn [lstrip_by]. rewrite Hc. rewrite <- Ht'. apply rstrip_by_idem.
Qed.

Lemma strip_idem (s : string) : strip (strip s) = strip s.
Proof. apply strip_by_idem. Qed.

Lemma py_int_strip (s : string) : py_int (strip s) = py_int s.
Proof. unfold py_int. rewrite strip_idem. reflexivity. Qed.

(** A value [int()] refuses is parsed as an absent field. *)
Lemma parse_int_unparseable (s : string) :
  py_int s = None -> _parse_int (Some s) = _parse_int None.
Proof.
  intros H. cbn [_parse_int].
  destruct (strip s) eqn:Hs; [reflexivity |].
  rewrite <- Hs, py_int_strip. exact H.
Qed.

Section Endpoints.
Context {imaging : Imaging}.

(** C6. At both endpoints an [out_format] that, trimmed and lower-cased, is
    none of [jpg], [jpeg], [png], [webp] is answered with HTTP 400 and an empty
    log: no upload has been read and nothing has been decoded. *)
Theorem unsupported_format_rejected_first
    (file : UploadFile) (files : list UploadFile)
    (width height preset : option string) (keep_ratio : bool) (quality : Z)
    (out_format : string) :
  Spec.output_format_of out_format = None ->
  run (process_single file width height keep_ratio quality out_format)
  = (Raise (HTTPException 400 "Output format must be JPG, PNG, or WEBP."), [])
  /\ exists detail,
       run (process_zip files width height preset keep_ratio quality out_format)
       = (Raise (HTTPException 400 detail), []).
Proof.
  intros H. apply unsupported_normalizes_empty in H. split.
  - unfold process_single. rewrite H. reflexivity.
  - unfold process_zip. destruct files as [| f rest].
    + eexists. reflexivity.
    + rewrite H. eexists. reflexivity.
Qed.

(** C10. A width or height that [int()] does not accept ([abc], or white
    space only) is the same as an absent field: it parses to [None], and both
    endpoints run exactly as they do without it, so no error and no range
    check comes from that value. *)
Theorem unparseable_dimension_is_absent
    (file : UploadFile) (files : list UploadFile)
    (s : string) (other preset : option string) (keep_ratio : bool) (quality : Z)
    (out_format : string) :
  py_int s = None ->
  _parse_int (Some s) = None
  /\ process_single file (Some s) other keep_ratio quality out_format
     = process_single file None other keep_ratio quality out_format
  /\ process_single file other (Some s) keep_ratio quality out_format
     = process_single file other None keep_ratio quality out_format
  /\ process_zip files (Some s) other preset keep_ratio quality out_format
     = process_zip files None other preset keep_ratio quality out_format
  /\ process_zip files other (Some s) preset keep_ratio quality out_format
     = process_zip files other None preset keep_ratio quality out_format.
Proof.
  intros H. pose proof (parse_int_unparseable s H) as Hp.
  repeat split.
  - exact Hp.
  - unfold process_single. rewrite Hp. reflexivity.
  - unfold process_single. rewrite Hp. reflexivity.
  - unfold process_zip. rewrite Hp. reflexivity.
  - unfold process_zip. rewrite Hp. reflexivity.
Qed.

End Endpoints.

(** ** The batch loop *)

Section BatchLoop.
Context {imaging : Imaging}.
Variables (pct : option Z) (fixed : option (Z * Z)) (w h : option Z).
Variables (keep_ratio : bool) (quality : Z) (out_fmt : string).

Local Notation "'one'" := (zip_one pct fixed w h keep_ratio quality out_fmt).
Local Notation "'loop'" := (zip_loop pct fixed w h keep_ratio quality out_fmt).

Lemma zip_one_ok (zf zf' : list (string * bytes)) (c c' : Z) (f : UploadFile)
    (log log' : list event) :
  one (zf, c) f log = (Ok (zf', c'), log') ->
  (kept pct f = false /\ zf' = zf /\ c' = c)
  \/ (kept pct f = true
      /\ exists out, zf' = (zf ++ [(entry_name f out_fmt zf c, out)])%list /\ c' = c + 1).
Proof.
  unfold zip_one, kept, batch_dims, bind, emit, ret.
  destruct (content f) as [| b data] eqn:Hc.
  - intros [= <- <- <-]. left. auto.
  - destruct pct as [p |].
    + destruct (image_open (b :: data)) as [im |].
      * destruct (size im) as [ow oh]. unfold lift.
        destruct (pct_target ow p) as [tw | e]; [| discriminate].
        destruct (pct_target oh p) as [th | e]; [| discriminate].
        destruct (_process_bytes _ _ _ _ _ _ _) as [[[out sz] | e] log1]; [| discriminate].
        intros [= <- <- <-]. right. split; [reflexivity |]. exists out. auto.
      * intros [= <- <- <-]. left. auto.
    + destruct fixed as [[a b'] |].
      * destruct (_process_bytes _ _ _ _ _ _ _) as [[[out sz] | e] log1]; [| discriminate].
        intros [= <- <- <-]. right. split; [reflexivity |]. exists out. auto.
      * destruct (_process_bytes _ _ _ _ _ _ _) as [[[out sz] | e] log1]; [| discriminate].
        intros [= <- <- <-]. right. split; [reflexivity |]. exists out. auto.
Qed.

Lemma zip_loop_ok (files : list UploadFile) :
  forall (zf zf' : list (string * bytes)) (c c' : Z) (log log' : list event),
    loop (zf, c) files log = (Ok (zf', c'), log') ->
    exists new,
      zf' = (zf ++ new)%list
      /\ c' = c + Z.of_nat (List.length new)
      /\ List.length new = List.length (filter (kept pct) files)
      /\ forall k fk,
           nth_error (filter (kept pct) files) k = Some fk ->
           exists out,
             nth_error new k
             = Some (entry_name fk out_fmt (zf ++ firstn k new)%list (c + Z.of_nat k), out).
Proof.
  induction files as [| f rest IH]; intros zf zf' c c' log log' Hrun.
  - cbn in Hrun. injection Hrun as <- <- <-. exists []. cbn.
    rewrite List.app_nil_r. repeat split; [lia |]. intros [| k] fk; discriminate.
  - cbn [zip_loop] in Hrun. unfold bind in Hrun.
    destruct (one (zf, c) f log) as [[[zf1 c1] | e] log1] eqn:H1; [| discriminate].
    apply zip_one_ok in H1. apply IH in Hrun. destruct Hrun as (new & -> & -> & Hlen & Hnth).
    destruct H1 as [(Hk & -> & ->) | (Hk & out & -> & ->)]; cbn [filter]; rewrite Hk.
    + exists new. auto.
    + exists ((entry_name f out_fmt zf c, out) :: new). repeat split.
      * rewrite <- List.app_assoc. reflexivity.
      * cbn [List.length]. lia.
      * cbn [List.length]. lia.
      * intros [| k] fk Hfk.
        -- cbn in Hfk. injection Hfk as <-. exists out. cbn.
           rewrite List.app_nil_r, Z.add_0_r. reflexivity.
        -- cbn [nth_error] in Hfk. destruct (Hnth k fk Hfk) as (o & Ho).
           exists o. cbn [nth_error firstn]. rewrite Ho.
           rewrite <- List.app_assoc. cbn [app].
           replace (c + 1 + Z.of_nat k) with (c + Z.of_nat (S k)) by lia. reflexivity.
Qed.

Lemma zip_one_unusable (st : zip_state) (f : UploadFile) (log : list event) :
  unusable f ->
  exists log',
    one st f log = (Ok st, log')
    \/ exists detail, one st f log = (Raise (HTTPException 400 detail), log').
Proof.
  intros Hu. destruct st as [zf c].
  unfold zip_one, batch_dims, bind, emit, ret.
  destruct (content f) as [| b data] eqn:Hc.
  - eexists. left. reflexivity.
  - assert (Hopen : image_open (b :: data) = None).
    { destruct Hu as [Hu | Hu]; rewrite Hc in Hu; [discriminate | exact Hu]. }
    destruct pct as [p |].
    + rewrite Hopen. eexists. left. reflexivity.
    + unfold _process_bytes, bind, emit, raise. rewrite Hopen.
      destruct fixed as [[a b'] |]; eexists; right; eexists; reflexivity.
Qed.

Lemma zip_loop_unusable (files : list UploadFile) :
  Forall unusable files ->
  forall st log,
  exists log',
    loop st files log = (Ok st, log')
    \/ exists detail, loop st files log = (Raise (HTTPException 400 detail), log').
Proof.
  induction 1 as [| f rest Hf Hrest IH]; intros st log.
  - eexists. left. reflexivity.
  - cbn [zip_loop]. unfold bind.
    destruct (zip_one_unusable st f log Hf) as (log1 & [-> | (d & ->)]).
    + apply IH.
    + eexists. right. eexists. reflexivity.
Qed.

End BatchLoop.

(** ** Strings *)

Lemma append_inj_l (a x y : string) : a ++ x = a ++ y -> x = y.
Proof.
  induction a as [| c a IH]; cbn; [auto |]. intros [= H]. auto.
Qed.

Lemma length_app (a b : string) :
  String.length (a ++ b) = (String.length a + String.length b)%nat.
Proof. induction a as [| c a IH]; cbn; [reflexivity | rewrite IH; reflexivity]. Qed.

Lemma append_inj_r (e x y : string) : x ++ e = y ++ e -> x = y.
Proof.
  revert y. induction x as [| c x IH]; intros [| d y] H.
  - reflexivity.
  - apply (f_equal String.length) in H. cbn in H. rewrite length_app in H. lia.
  - apply (f_equal String.length) in H. cbn in H. rewrite length_app in H. lia.
  - cbn in H. injection H as -> H. f_equal. apply IH, H.
Qed.

Lemma py_str_inj (a b : Z) : py_str a = py_str b -> a = b.
Proof.
  unfold py_str. intros H.
  assert (Hn : forall z, Z.to_int z <> Decimal.Pos Decimal.Nil
                         /\ Z.to_int z <> Decimal.Neg Decimal.Nil).
  { intros [| p | p]; cbn; split; try discriminate;
      intros [= Hp]; exact (DecimalPos.Unsigned.to_uint_nonnil p Hp). }
  pose proof (NilZero.isi (Z.to_int a) (proj1 (Hn a)) (proj2 (Hn a))) as Ha.
  pose proof (NilZero.isi (Z.to_int b) (proj1 (Hn b)) (proj2 (Hn b))) as Hb.
  rewrite H in Ha. rewrite Ha in Hb. injection Hb as Hb.
  apply DecimalZ.to_int_inj, Hb.
Qed.

Lemma name_in_In (n : string) (l : list string) : name_in n l = true <-> In n l.
Proof.
  unfold name_in. rewrite existsb_exists. split.
  - intros (x & Hx & He). apply String.eqb_eq in He. subst. exact Hx.
  - intros H. exists n. split; [exact H | apply String.eqb_refl].
Qed.

Lemma entry_name_eq (f : UploadFile) (out_fmt : string)
    (zf : list (string * bytes)) (c : Z) :
  entry_name f out_fmt zf c
  = if name_in (base_name_of f (c + 1) ++ _format_ext out_fmt) (namelist zf)
    then base_name_of f (c + 1) ++ "_" ++ py_str (c + 1) ++ _format_ext out_fmt
    else base_name_of f (c + 1) ++ _format_ext out_fmt.
Proof.
  unfold entry_name, base_name_of.
  destruct (_split_name_ext _) as [b e]. reflexivity.
Qed.

Lemma indexed_name_fresh (b e : string) (i : Z) : b ++ "_" ++ py_str i ++ e <> b ++ e.
Proof.
  intros H. apply append_inj_l in H.
  apply (f_equal String.length) in H. cbn in H. rewrite length_app in H. lia.
Qed.

Lemma indexed_name_inj (b e : string) (i j : Z) :
  b ++ "_" ++ py_str i ++ e = b ++ "_" ++ py_str j ++ e -> i = j.
Proof.
  intros H. apply append_inj_l in H. cbn in H. injection H as H.
  apply append_inj_r in H. apply py_str_inj, H.
Qed.

Lemma firstn_In_nth {A} (l : list A) (i j : nat) (x : A) :
  (i < j)%nat -> nth_error l i = Some x -> In x (firstn j l).
Proof.
  revert i j. induction l as [| a l IH]; intros [| i] [| j] Hij Hx; try lia; cbn in *;
    try discriminate.
  - injection Hx as ->. left. reflexivity.
  - right. apply (IH i j); [lia | exact Hx].
Qed.

Lemma firstn_In_mono {A} (l : list A) (i j : nat) (x : A) :
  (i <= j)%nat -> In x (firstn i l) -> In x (firstn j l).
Proof.
  revert i j. induction l as [| a l IH]; intros [| i] [| j] Hij Hx; try lia; cbn in *;
    try contradiction.
  destruct Hx as [-> | Hx]; [left; reflexivity | right].
  apply (IH i j); [lia | exact Hx].
Qed.

Section BatchNames.
Context {imaging : Imaging}.

(** C4. In the archive of a batch that succeeds, the entry of each file
    written is its base name with the new extension, or, when that name is
    already among the earlier entries, the base name, an underscore and the
    file's 1-based index among the files written, then the extension; and two
    files written with the same base name get different entry names. *)
Theorem batch_entry_names
    (files : list UploadFile) (width height preset : option string)
    (keep_ratio : bool) (quality : Z) (out_format : string) (resp : Response) :
  fst (run (process_zip files width height preset keep_ratio quality out_format)) = Ok resp ->
  exists entries,
    resp_body resp = ZipBody entries
    /\ let written := filter (kept (fst (preset_of_form preset))) files in
       let names := map fst entries in
       let ext := _format_ext (_normalize_format out_format) in
       List.length names = List.length written
       /\ (forall j fj nj,
             nth_error written j = Some fj -> nth_error names j = Some nj ->
             let base := base_name_of fj (Z.of_nat j + 1) in
             nj = if name_in (base ++ ext) (firstn j names)
                  then base ++ "_" ++ py_str (Z.of_nat j + 1) ++ ext
                  else base ++ ext)
       /\ (forall i j fi fj ni nj,
             (i < j)%nat ->
             nth_error written i = Some fi -> nth_error written j = Some fj ->
             nth_error names i = Some ni -> nth_error names j = Some nj ->
             base_name_of fi (Z.of_nat i + 1) = base_name_of fj (Z.of_nat j + 1) ->
             ni <> nj).
Proof.
  unfold run, process_zip. destruct files as [| f0 rest]; [discriminate |].
  destruct (String.eqb (_normalize_format out_format) "") eqn:Hfmt; [discriminate |].
  destruct (preset_of_form preset) as [pct fixed]. unfold bind.
  destruct (zip_loop _ _ _ _ _ _ _ _ _ _) as [[[zf c] | e] log] eqn:Hloop; [| discriminate].
  apply zip_loop_ok in Hloop. destruct Hloop as (new & -> & -> & Hlen & Hnth).
  cbn [app] in *.
  destruct (Z.eqb (0 + Z.of_nat (List.length new)) 0); [discriminate |].
  cbn [fst ret]. intros [= <-]. exists new. split; [reflexivity |].
  cbn [fst]. cbv zeta.
  set (written := filter (kept pct) (f0 :: rest)) in *.
  set (ext := _format_ext (_normalize_format out_format)).
  assert (Hrule : forall j fj nj,
             nth_error written j = Some fj -> nth_error (map fst new) j = Some nj ->
             nj = if name_in (base_name_of fj (Z.of_nat j + 1) ++ ext) (firstn j (map fst new))
                  then base_name_of fj (Z.of_nat j + 1) ++ "_" ++ py_str (Z.of_nat j + 1) ++ ext
                  else base_name_of fj (Z.of_nat j + 1) ++ ext).
  { intros j fj nj Hfj Hnj. destruct (Hnth j fj Hfj) as (out & Hout).
    rewrite nth_error_map, Hout in Hnj. cbn in Hnj. injection Hnj as <-.
    rewrite entry_name_eq. unfold namelist. rewrite firstn_map.
    replace (0 + Z.of_nat j + 1) with (Z.of_nat j + 1) by lia. reflexivity. }
  split; [| split].
  - rewrite length_map. exact Hlen.
  - exact Hrule.
  - intros i j fi fj ni nj Hij Hfi Hfj Hni Hnj Hbase Heq.
    pose proof (Hrule i fi ni Hfi Hni) as Ei.
    pose proof (Hrule j fj nj Hfj Hnj) as Ej.
    rewrite <- Hbase in Ej.
    set (b := base_name_of fi (Z.of_nat i + 1)) in *.
    pose proof (firstn_In_nth (map fst new) i j ni Hij Hni) as Hin.
    destruct (name_in (b ++ ext) (firstn i (map fst new))) eqn:Ci.
    + (* the earlier file itself collided: the plain name is older still *)
      assert (Hold : In (b ++ ext) (firstn j (map fst new))).
      { apply name_in_In in Ci. apply (firstn_In_mono _ i j); [lia | exact Ci]. }
      apply name_in_In in Hold. rewrite Hold in Ej.
      rewrite Ei, Ej in Heq. apply indexed_name_inj in Heq. lia.
    + rewrite Ei in Hin. apply name_in_In in Hin. rewrite Hin in Ej.
      rewrite Ei, Ej in Heq. symmetry in Heq. exact (indexed_name_fresh _ _ _ Heq).
Qed.

End BatchNames.

Section BatchClaims.
Context {imaging : Imaging}.

(** C7, amended. Under a percentage preset [pct] the width and height a file
    is processed with come from that file's own decoded size alone: for
    size * pct up to [2^50] each is a nearest integer to size * pct / 100
    (either neighbour of a half), raised to 1 if smaller. *)
Theorem percentage_target_per_file
    (preset : option string) (pct : Z) (fixed : option (Z * Z)) (w h : option Z)
    (data : bytes) (im : image) (ow oh : Z) (log : list event) :
  preset_of_form preset = (Some pct, fixed) ->
  image_open data = Some im -> size im = (ow, oh) ->
  1 <= ow -> 1 <= oh -> ow * pct <= 2 ^ 50 -> oh * pct <= 2 ^ 50 ->
  0 < pct
  /\ exists rw rh,
       batch_dims (Some pct) fixed w h data log
       = (Ok (Some (Some (Z.max 1 rw), Some (Z.max 1 rh))), (log ++ [EvOpen data])%list)
       /\ -50 <= 100 * rw - ow * pct <= 50
       /\ -50 <= 100 * rh - oh * pct <= 50.
Proof.
  intros Hpre Hopen Hsize How Hoh Hbw Hbh.
  assert (Hpos : 0 < pct).
  { unfold preset_of_form in Hpre.
    destruct (endswith "%" _).
    - destruct (py_int _) as [p |]; [| discriminate].
      destruct (p <=? 0)%Z eqn:Hp; [discriminate |].
      apply Z.leb_gt in Hp. injection Hpre as <- _. exact Hp.
    - destruct (contains "x" _); discriminate. }
  split; [exact Hpos |].
  destruct (pct_dim_nearest ow pct ltac:(lia) ltac:(lia) Hbw) as (rw & Ew & Hw).
  destruct (pct_dim_nearest oh pct ltac:(lia) ltac:(lia) Hbh) as (rh & Eh & Hh).
  exists rw, rh. split; [| split; assumption].
  unfold batch_dims, bind, emit, ret, lift. rewrite Hopen, Hsize.
  rewrite !pct_target_in_range by lia. rewrite Ew, Eh. reflexivity.
Qed.

(** C9. A batch in which every upload is empty or does not decode is
    answered with HTTP 400; and a batch that is answered with an archive has
    at least one entry in it. *)
Theorem batch_without_output_fails
    (files : list UploadFile) (width height preset : option string)
    (keep_ratio : bool) (quality : Z) (out_format : string) :
  (Forall unusable files ->
   exists detail,
     fst (run (process_zip files width height preset keep_ratio quality out_format))
     = Raise (HTTPException 400 detail))
  /\ (forall resp,
        fst (run (process_zip files width height preset keep_ratio quality out_format))
        = Ok resp ->
        exists entry entries, resp_body resp = ZipBody (entry :: entries)).
Proof.
  split.
  - intros Hall. unfold run, process_zip.
    destruct files as [| f0 rest]; [eexists; reflexivity |].
    destruct (String.eqb (_normalize_format out_format) ""); [eexists; reflexivity |].
    destruct (preset_of_form preset) as [pct fixed]. unfold bind.
    destruct (zip_loop_unusable pct fixed (_parse_int width) (_parse_int height)
                keep_ratio quality (_normalize_format out_format) (f0 :: rest) Hall
                ([], 0) []) as (log' & [-> | (d & ->)]).
    + eexists. reflexivity.
    + eexists. reflexivity.
  - intros resp. unfold run, process_zip.
    destruct files as [| f0 rest]; [discriminate |].
    destruct (String.eqb (_normalize_format out_format) ""); [discriminate |].
    destruct (preset_of_form preset) as [pct fixed]. unfold bind.
    destruct (zip_loop _ _ _ _ _ _ _ _ _ _) as [[[zf c] | e] log] eqn:Hloop; [| discriminate].
    apply zip_loop_ok in Hloop. destruct Hloop as (new & -> & -> & _ & _).
    cbn [app]. destruct (Z.eqb (0 + Z.of_nat (List.length new)) 0) eqn:Hc; [discriminate |].
    cbn. intros [= <-]. cbn.
    destruct new as [| entry entries]; [discriminate | eauto].
Qed.

(** Without a percentage preset, bytes that do not decode end the request. *)
Lemma undecodable_aborts_batch
    (fixed : option (Z * Z)) (w h : option Z) (keep_ratio : bool) (quality : Z)
    (out_fmt : string) (st : zip_state) (f : UploadFile) (rest : list UploadFile)
    (log : list event) :
  content f <> [] -> image_open (content f) = None ->
  zip_loop None fixed w h keep_ratio quality out_fmt st (f :: rest) log
  = (Raise (HTTPException 400 ("Could not read image: " ++ open_error (content f))),
     (log ++ [EvRead f] ++ [EvOpen (content f)])%list).
Proof.
  intros Hne Hopen. destruct st as [zf c]. cbn [zip_loop].
  unfold zip_one, batch_dims, _process_bytes, bind, emit, ret, raise.
  destruct (content f) as [| b data] eqn:Hc; [congruence |].
  rewrite Hopen. rewrite List.app_assoc.
  destruct fixed as [[a b'] |]; reflexivity.
Qed.

(** Under a percentage preset, the same bytes are passed over. *)
Lemma undecodable_skipped_under_percentage
    (pct : Z) (fixed : option (Z * Z)) (w h : option Z) (keep_ratio : bool)
    (quality : Z) (out_fmt : string) (st : zip_state) (f : UploadFile)
    (log : list event) :
  content f <> [] -> image_open (content f) = None ->
  zip_one (Some pct) fixed w h keep_ratio quality out_fmt st f log
  = (Ok st, (log ++ [EvRead f] ++ [EvOpen (content f)])%list).
Proof.
  intros Hne Hopen. destruct st as [zf c].
  unfold zip_one, batch_dims, bind, emit, ret.
  destruct (content f) as [| b data] eqn:Hc; [congruence |].
  rewrite Hopen. rewrite List.app_assoc. reflexivity.
Qed.

(** An empty body is passed over in every configuration. *)
Lemma empty_file_skipped
    (pct : option Z) (fixed : option (Z * Z)) (w h : option Z) (keep_ratio : bool)
    (quality : Z) (out_fmt : string) (st : zip_state) (f : UploadFile)
    (log : list event) :
  content f = [] ->
  zip_one pct fixed w h keep_ratio quality out_fmt st f log
  = (Ok st, (log ++ [EvRead f])%list).
Proof.
  intros Hc. destruct st as [zf c]. unfold zip_one, bind, emit, ret.
  rewrite Hc. reflexivity.
Qed.

End BatchClaims.

(** ** Preset tokens *)

Lemma endswith_drop_last (c : ascii) (s : string) :
  endswith c s = true -> s = drop_last s ++ String c EmptyString.
Proof.
  induction s as [| d s IH]; [discriminate |].
  destruct s as [| e s'].
  - cbn. intros H. apply Ascii.eqb_eq in H. subst. reflexivity.
  - intros H. change (endswith c (String d (String e s'))) with (endswith c (String e s')) in H.
    change (drop_last (String d (String e s'))) with (String d (drop_last (String e s'))).
    cbn [append]. f_equal. apply IH, H.
Qed.

Lemma split_once_app (c : ascii) (s a b : string) :
  split_once c s = Some (a, b) -> s = a ++ String c b.
Proof.
  revert a. induction s as [| d s IH]; intros a; [discriminate |].
  cbn [split_once]. destruct (Ascii.eqb d c) eqn:Hd.
  - intros [= <- <-]. apply Ascii.eqb_eq in Hd. subst. reflexivity.
  - destruct (split_once c s) as [[a' b'] |]; [| discriminate].
    intros [= <- <-]. cbn. f_equal. apply IH. reflexivity.
Qed.

Lemma preset_of_form_unparsed (preset : string) :
  ~ percentage_form (strip preset) ->
  ~ dimensions_form (lower (strip preset)) ->
  preset_of_form (Some preset) = (None, None).
Proof.
  intros Hp Hd. unfold preset_of_form.
  destruct (endswith "%" (strip preset)) eqn:He.
  - destruct (py_int (drop_last (strip preset))) as [p |] eqn:Hi; [| reflexivity].
    destruct (p <=? 0)%Z eqn:Hp0; [reflexivity |].
    exfalso. apply Hp. exists (drop_last (strip preset)), p.
    apply Z.leb_gt in Hp0.
    split; [apply endswith_drop_last; exact He | split; [exact Hi | exact Hp0]].
  - destruct (contains "x" (strip preset)); [| reflexivity].
    destruct (split_once "x" (lower (strip preset))) as [[a b] |] eqn:Hs; [| reflexivity].
    destruct (py_int a) as [wv |] eqn:Ha; [| reflexivity].
    destruct (py_int b) as [hv |] eqn:Hb; [| reflexivity].
    exfalso. apply Hd. exists a, b, wv, hv.
    split; [exact (split_once_app _ _ _ _ Hs) | split; [exact Ha | exact Hb]].
Qed.

Section PresetClaims.
Context {imaging : Imaging}.

(** X19. A preset token that is neither an integer literal with a positive
    value followed by a percent sign, nor two integer literals around an [x],
    sets no preset: the batch runs exactly as without one. *)
Theorem unparsed_preset_falls_back
    (files : list UploadFile) (width height : option string) (preset : string)
    (keep_ratio : bool) (quality : Z) (out_format : string) :
  ~ percentage_form (strip preset) ->
  ~ dimensions_form (lower (strip preset)) ->
  preset_of_form (Some preset) = (None, None)
  /\ process_zip files width height (Some preset) keep_ratio quality out_format
     = process_zip files width height None keep_ratio quality out_format.
Proof.
  intros Hp Hd. pose proof (preset_of_form_unparsed preset Hp Hd) as E.
  split; [exact E |]. unfold process_zip. rewrite E. reflexivity.
Qed.

(** A fixed preset with a number that is not positive stops the request at the
    first file that has a body and decodes. *)
Lemma nonpositive_fixed_preset_rejected
    (f : UploadFile) (rest : list UploadFile) (width height preset : option string)
    (wv hv : Z) (keep_ratio : bool) (quality : Z) (out_format : string) (im : image) :
  preset_of_form preset = (None, Some (wv, hv)) ->
  wv <= 0 \/ (wv <= 20000 /\ hv <= 0) ->
  content f <> [] -> image_open (content f) = Some im ->
  _normalize_format out_format <> "" ->
  fst (run (process_zip (f :: rest) width height preset keep_ratio quality out_format))
  = Raise (HTTPException 400 "Width/Height must be positive.").
Proof.
  intros Hpre Hneg Hne Hopen Hfmt. unfold run, process_zip.
  destruct (String.eqb_spec (_normalize_format out_format) ""); [contradiction |].
  rewrite Hpre. cbn [zip_loop].
  unfold zip_one, batch_dims, _process_bytes, bind, emit, ret, raise, lift.
  destruct (content f) as [| b data] eqn:Hc; [congruence |].
  rewrite Hopen. unfold _validate_dims, validate_dim.
  destruct Hneg as [Hw | [Hw Hh]].
  - replace (wv <=? 0)%Z with true by (symmetry; apply Z.leb_le; exact Hw). reflexivity.
  - destruct (wv <=? 0)%Z; [reflexivity |].
    replace (MAX_DIMENSION <? wv)%Z with false
      by (symmetry; apply Z.ltb_ge; unfold MAX_DIMENSION; lia).
    replace (hv <=? 0)%Z with true by (symmetry; apply Z.leb_le; exact Hh). reflexivity.
Qed.

End PresetClaims.

(** Some token that is not a well-formed preset changes the answer to a
    request: [0x0] does. *)
Lemma zero_dimensions_preset_not_degraded : ~ malformed_preset_is_no_preset.
Proof.
  intros H.
  destruct (H Toy.toy_imaging [Toy.upload "a.png" (Toy.toy_file 10 10)] None None
              "0x0" true 85 "png" eq_refl) as [_ H2].
  vm_compute in H2. discriminate.
Qed.

(** ** The properties on the small imaging library *)

Import Toy.

Lemma fit_inside_box_witness :
  exists nw nh,
    resolve_size 800 600 (Some 400) (Some 400) true = Ok (nw, nh)
    /\ nw <= 400 /\ nh <= 400 /\ (nw = 400 \/ nh = 400).
Proof. apply (fit_inside_box 800 600 400 400); lia. Defined.

Lemma png_effort_mapping_witness :
  _save_image photo_raster "png" 85
  = Ok (save photo_raster (SavePNG true (Spec.effort_level 85)))
  /\ png_compress_level 85 = Spec.effort_level 85
  /\ 0 <= png_compress_level 85 <= 9
  /\ png_compress_level 100 = 0
  /\ png_compress_level 10 = 9
  /\ (forall q', 85 <= q' <= 100 -> png_compress_level q' <= png_compress_level 85).
Proof. apply (png_effort_mapping (imaging := toy_imaging) photo_raster 85). lia. Defined.

Lemma quality_is_clamped_witness :
  _save_image photo_raster "jpeg" 3 = _save_image photo_raster "jpeg" 10
  /\ _save_image photo_raster "webp" 250 = _save_image photo_raster "webp" 100.
Proof.
  split.
  - apply (proj1 (quality_is_clamped (imaging := toy_imaging) photo_raster "jpeg" 3)). lia.
  - apply (proj2 (quality_is_clamped (imaging := toy_imaging) photo_raster "webp" 250)). lia.
Defined.

Lemma unsupported_format_rejected_first_witness :
  Spec.output_format_of "bmp" = None
  /\ run (process_single photo None None true 85 "bmp")
     = (Raise (HTTPException 400 "Output format must be JPG, PNG, or WEBP."), [])
  /\ exists detail,
       run (process_zip [photo; square] None None None true 85 "bmp")
       = (Raise (HTTPException 400 detail), []).
Proof.
  split; [reflexivity |].
  apply (unsupported_format_rejected_first (imaging := toy_imaging)
           photo [photo; square] None None None true 85 "bmp").
  reflexivity.
Defined.

Lemma unparseable_dimension_is_absent_witness :
  py_int "abc" = None
  /\ _parse_int (Some "abc") = None
  /\ process_single photo (Some "abc") (Some "300") true 85 "png"
     = process_single photo None (Some "300") true 85 "png"
  /\ process_single photo (Some "300") (Some "abc") true 85 "png"
     = process_single photo (Some "300") None true 85 "png"
  /\ process_zip [photo; square] (Some "abc") (Some "300") None true 85 "png"
     = process_zip [photo; square] None (Some "300") None true 85 "png"
  /\ process_zip [photo; square] (Some "300") (Some "abc") None true 85 "png"
     = process_zip [photo; square] (Some "300") None None true 85 "png".
Proof.
  split; [reflexivity |].
  apply (unparseable_dimension_is_absent (imaging := toy_imaging)
           photo [photo; square] "abc" (Some "300") None true 85 "png").
  reflexivity.
Defined.

(** C2. Without a percentage preset, one upload whose bytes do not decode
    ends the whole batch with HTTP 400 before the next file is read; the
    batch without that file succeeds, and so does the same batch under the
    preset [100%], where the file is passed over. *)
Theorem undecodable_file_aborts_batch :
  run (process_zip [garbage; photo] None None None true 85 "png")
  = (Raise (HTTPException 400 "Could not read image: cannot identify image file"),
     [EvRead garbage; EvOpen (content garbage)])
  /\ (exists resp, fst (run (process_zip [photo] None None None true 85 "png")) = Ok resp)
  /\ (exists resp log,
        run (process_zip [garbage; photo] None None (Some "100%") true 85 "png")
        = (Ok resp, log)
        /\ In (EvRead photo) log
        /\ exists data, resp_body resp = ZipBody [("photo.png", data)]).
Proof.
  split; [vm_compute; reflexivity |].
  split; [eexists; vm_compute; reflexivity |].
  eexists. eexists. split; [vm_compute; reflexivity |].
  split; [cbn; auto |]. eexists. reflexivity.
Qed.

Lemma percentage_target_per_file_witness :
  0 < 50
  /\ exists rw rh,
       batch_dims (Some 50) None (Some 64) None (content photo) []
       = (Ok (Some (Some (Z.max 1 rw), Some (Z.max 1 rh))), [EvOpen (content photo)])
       /\ -50 <= 100 * rw - 800 * 50 <= 50
       /\ -50 <= 100 * rh - 600 * 50 <= 50.
Proof.
  apply (percentage_target_per_file (imaging := toy_imaging)
           (Some "50%") 50 None (Some 64) None (content photo) photo_raster 800 600 []).
  - reflexivity.
  - reflexivity.
  - reflexivity.
  - lia.
  - lia.
  - vm_compute. discriminate.
  - vm_compute. discriminate.
Defined.

(** C7 as stated fails: a 90 x 90 image under the preset [35%] is given the
    target 31 on each axis, where 90 * 35 / 100 = 31.5 rounds to 32, with
    halves to even as with halves up. *)
Lemma percentage_rounding_differs :
  ~ Spec.percentage_preset_exact round_half_even
  /\ ~ Spec.percentage_preset_exact Spec.round_half_up.
Proof.
  split; intros H;
    specialize (H toy_imaging (Some "35%") 35 None None None (toy_file 90 90)
                  {| r_size := (90, 90); r_mode := "RGB"; r_transparency := false |}
                  90 90 [] eq_refl eq_refl eq_refl);
    vm_compute in H; discriminate H.
Qed.

(** Halves of the exact percentage go either way, and a percentage too large
    for a float stops the request with [OverflowError]. *)
Lemma percentage_edge_examples :
  pct_target 90 35 = Ok 31
  /\ pct_target 150 7 = Ok 11
  /\ pct_target 250 1 = Ok 2
  /\ pct_target 800 (10 ^ 308) = Raise OverflowError
  /\ fst (run (process_zip [photo] None None
                 (Some (py_str (10 ^ 308) ++ "%")) true 85 "png"))
     = Raise OverflowError.
Proof. vm_compute. repeat split. Qed.

(** The percentage examples of the specification. *)
Lemma percentage_examples :
  (pct_dim 800 50, pct_dim 600 50) = (400, 300)
  /\ (pct_dim 800 25, pct_dim 600 25) = (200, 150)
  /\ (pct_dim 1000 50, pct_dim 1000 50) = (500, 500)
  /\ pct_dim 1 50 = 1
  /\ pct_dim 150 7 = 11.
Proof. vm_compute. repeat split. Qed.

(** Two files of one batch under the preset [50%]: each is sized from its own
    original, 400 x 300 and 500 x 500. *)
Lemma percentage_batch_example :
  fst (run (process_zip [photo; square] None None (Some "50%") true 85 "png"))
  = Ok {| resp_body :=
            ZipBody [("photo.png", toy_save {| r_size := (400, 300); r_mode := "RGB";
                                                r_transparency := false |}
                                     (SavePNG true 2));
                     ("photo_2.png", toy_save {| r_size := (500, 500); r_mode := "RGB";
                                                  r_transparency := false |}
                                       (SavePNG true 2))];
          media_type := "application/zip";
          headers := [("Content-Disposition",
                       "attachment; filename=" ++ dquote ++ "processed_images.zip" ++ dquote)];
          resp_status := 200 |}.
Proof. vm_compute. reflexivity. Qed.

Lemma batch_without_output_fails_witness :
  (exists detail,
     fst (run (process_zip [blank; garbage; blank] None None None true 85 "png"))
     = Raise (HTTPException 400 detail))
  /\ exists entry entries, resp_body three_photos_response = ZipBody (entry :: entries).
Proof.
  split.
  - apply (proj1 (batch_without_output_fails (imaging := toy_imaging)
                    [blank; garbage; blank] None None None true 85 "png")).
    apply Forall_cons; [left; reflexivity |].
    apply Forall_cons; [right; reflexivity |].
    apply Forall_cons; [left; reflexivity | apply Forall_nil].
  - apply (proj2 (batch_without_output_fails (imaging := toy_imaging)
                    [photo; square; blank; photo] None None None true 85 "jpg")).
    vm_compute. reflexivity.
Defined.

(** The partial-failure example of the specification: one empty upload among
    two images gives two entries; three empty uploads give an error. *)
Lemma partial_failure_example :
  (exists a b resp,
     fst (run (process_zip [photo; blank; square] None None None true 85 "png")) = Ok resp
     /\ resp_body resp = ZipBody [a; b])
  /\ fst (run (process_zip [blank; blank; blank] None None None true 85 "png"))
     = Raise (HTTPException 400 "All uploaded files were empty or invalid.").
Proof.
  split; [| vm_compute; reflexivity].
  eexists _, _, _. split; vm_compute; reflexivity.
Qed.

Lemma batch_entry_names_witness :
  fst (run (process_zip [photo; square; blank; photo] None None None true 85 "jpg"))
  = Ok three_photos_response
  /\ exists entries,
       resp_body three_photos_response = ZipBody entries
       /\ let written := filter (kept (fst (preset_of_form None))) [photo; square; blank; photo] in
          let names := map fst entries in
          let ext := _format_ext (_normalize_format "jpg") in
          List.length names = List.length written
          /\ (forall j fj nj,
                nth_error written j = Some fj -> nth_error names j = Some nj ->
                let base := base_name_of fj (Z.of_nat j + 1) in
                nj = if name_in (base ++ ext) (firstn j names)
                     then base ++ "_" ++ py_str (Z.of_nat j + 1) ++ ext
                     else base ++ ext)
          /\ (forall i j fi fj ni nj,
                (i < j)%nat ->
                nth_error written i = Some fi -> nth_error written j = Some fj ->
                nth_error names i = Some ni -> nth_error names j = Some nj ->
                base_name_of fi (Z.of_nat i + 1) = base_name_of fj (Z.of_nat j + 1) ->
                ni <> nj).
Proof.
  split; [vm_compute; reflexivity |].
  apply (batch_entry_names (imaging := toy_imaging)
           [photo; square; blank; photo] None None None true 85 "jpg").
  vm_compute. reflexivity.
Defined.

Lemma unparsed_preset_falls_back_witness :
  ~ percentage_form (strip "big")
  /\ ~ dimensions_form (lower (strip "big"))
  /\ preset_of_form (Some "big") = (None, None)
  /\ process_zip [photo; square] (Some "640") None (Some "big") true 85 "png"
     = process_zip [photo; square] (Some "640") None None true 85 "png".
Proof.
  assert (Hp : ~ percentage_form (strip "big")).
  { intros (a & p & H & _). vm_compute in H.
    destruct a as [| c0 [| c1 [| c2 [| c3 a]]]]; discriminate. }
  assert (Hd : ~ dimensions_form (lower (strip "big"))).
  { intros (a & b & wv & hv & H & _). vm_compute in H.
    destruct a as [| c0 [| c1 [| c2 [| c3 a]]]]; discriminate. }
  split; [exact Hp |]. split; [exact Hd |].
  apply (unparsed_preset_falls_back (imaging := toy_imaging)
           [photo; square] (Some "640") None "big" true 85 "png" Hp Hd).
Defined.

(** C3. The preset [0x0] is not well formed, yet it is read as the fixed
    dimensions (0, 0) and the request, which succeeds without a preset, is
    answered with HTTP 400 by the dimension check; the preset [0%], not
    positive either, is dropped and the request runs as without a preset. *)
Theorem zero_dimensions_preset_example :
  Spec.well_formed_preset "0x0" = false
  /\ preset_of_form (Some "0x0") = (None, Some (0, 0))
  /\ run (process_zip [photo] None None (Some "0x0") true 85 "png")
     = (Raise (HTTPException 400 "Width/Height must be positive."),
        [EvRead photo; EvOpen (content photo)])
  /\ (exists resp, fst (run (process_zip [photo] None None None true 85 "png")) = Ok resp)
  /\ Spec.well_formed_preset "0%" = false
  /\ preset_of_form (Some "0%") = (None, None)
  /\ run (process_zip [photo] None None (Some "0%") true 85 "png")
     = run (process_zip [photo] None None None true 85 "png").
Proof.
  split; [reflexivity |]. split; [reflexivity |]. split; [vm_compute; reflexivity |].
  split; [eexists; vm_compute; reflexivity |].
  split; [reflexivity |]. split; [reflexivity |]. vm_compute. reflexivity.
Qed.


(** Values [int()] refuses, and values it accepts. *)
Lemma parse_int_examples :
  _parse_int (Some "abc") = None
  /\ _parse_int (Some "   ") = None
  /\ _parse_int (Some "12.5") = None
  /\ _parse_int (Some " 640 ") = Some 640
  /\ _parse_int (Some "-5") = Some (-5).
Proof. repeat split. Qed.

(** The cap on the digits of a literal: 4300 digits are read, 4301 are
    refused, and a percentage preset written with them is dropped. *)
Lemma long_literal_examples :
  py_int (String.append (repeat_char "0" 4298) "50") = Some 50
  /\ py_int (String.append (repeat_char "0" 4299) "50") = None
  /\ py_int (String.append "-" (String.append (repeat_char "1" 4301) " ")) = None
  /\ preset_of_form (Some (String.append (repeat_char "0" 4298) "50%")) = (Some 50, None)
  /\ preset_of_form (Some (String.append (repeat_char "0" 4299) "50%")) = (None, None).
Proof. repeat split; vm_compute; reflexivity. Qed.

(** An indexed name is checked against no entry: here the third file takes
    the name the first one has, the two having different base names. *)
Lemma indexed_name_example :
  exists a b c resp,
    fst (run (process_zip [upload "a_3.png" (toy_file 8 8); upload "a.png" (toy_file 8 8);
                           upload "a.png" (toy_file 8 8)]
                None None None true 85 "png")) = Ok resp
    /\ resp_body resp = ZipBody [("a_3.png", a); ("a.png", b); ("a_3.png", c)].
Proof. eexists _, _, _, _. split; vm_compute; reflexivity. Qed.

(** * Further properties *)

Import Shape Pipeline.

(** ** Shapes of strings *)

Lemma all_chars_lstrip (p q : ascii -> bool) (s : string) :
  all_chars p s = true -> all_chars p (lstrip_by q s) = true.
Proof.
  induction s as [| c s IH]; [reflexivity |]. cbn. intros H.
  apply andb_prop in H. destruct H as [Hc Hs].
  destruct (q c); [auto |]. cbn. rewrite Hc, Hs. reflexivity.
Qed.

Lemma all_chars_rstrip (p q : ascii -> bool) (s : string) :
  all_chars p s = true -> all_chars p (rstrip_by q s) = true.
Proof.
  induction s as [| c s IH]; [reflexivity |]. intros H. cbn in H.
  apply andb_prop in H. destruct H as [Hc Hs]. specialize (IH Hs).
  rewrite rstrip_by_cons. destruct (rstrip_by q s) as [| d t].
  - destruct (q c); [reflexivity |]. cbn. rewrite Hc. reflexivity.
  - cbn [all_chars]. rewrite Hc. exact IH.
Qed.

Lemma all_chars_sub_disallowed (b : bool) (s : string) :
  all_chars name_char (sub_disallowed b s) = true.
Proof.
  revert b. induction s as [| c s IH]; intros b; [reflexivity |]. cbn [sub_disallowed].
  destruct (name_char c) eqn:Hc.
  - cbn. rewrite Hc. apply IH.
  - destruct b; [apply IH |]. cbn [all_chars]. rewrite IH. reflexivity.
Qed.

Lemma all_chars_sub_underscores (p : ascii -> bool) (b : bool) (s : string) :
  all_chars p s = true -> all_chars p (sub_underscores b s) = true.
Proof.
  revert b. induction s as [| c s IH]; intros b; [reflexivity |]. cbn. intros H.
  apply andb_prop in H. destruct H as [Hc Hs].
  destruct (Ascii.eqb c "_") eqn:He.
  - destruct b; [apply IH, Hs |]. apply Ascii.eqb_eq in He. subst c.
    cbn [all_chars]. rewrite Hc. apply IH, Hs.
  - cbn [all_chars]. rewrite Hc. apply IH, Hs.
Qed.

Lemma endswith_rstrip (c : ascii) (s : string) :
  endswith c (rstrip_by (Ascii.eqb c) s) = false.
Proof.
  induction s as [| d s IH]; [reflexivity |].
  rewrite rstrip_by_cons. destruct (rstrip_by (Ascii.eqb c) s) as [| e t].
  - destruct (Ascii.eqb c d) eqn:Hd; [reflexivity |]. cbn.
    rewrite Ascii.eqb_sym. exact Hd.
  - exact IH.
Qed.

Lemma strip_char_head (c d : ascii) (s t : string) :
  strip_char c s = String d t -> Ascii.eqb c d = false.
Proof.
  unfold strip_char.
  destruct (lstrip_by_head (Ascii.eqb c) s) as [-> | (e & u & -> & He)]; [discriminate |].
  destruct (rstrip_by_head (Ascii.eqb c) e u He) as [u' ->].
  intros [= <- <-]. exact He.
Qed.

(** What [_clean_filename] gives before the default name is put in. *)
Lemma clean_filename_cases (name : string) :
  _clean_filename name = "image"
  \/ exists v, _clean_filename name = strip_char "_" (sub_underscores false (sub_disallowed false v)).
Proof.
  unfold _clean_filename.
  set (u := strip_char "_" _).
  destruct u as [| c t] eqn:Hu.
  - left. reflexivity.
  - right. eexists. cbn [str_or]. rewrite <- Hu. reflexivity.
Qed.

Lemma clean_filename_nonempty (name : string) : _clean_filename name <> "".
Proof.
  unfold _clean_filename, str_or. cbv zeta.
  destruct (strip_char "_" _) as [| c t]; intros H; discriminate H.
Qed.

Lemma clean_filename_shape (name : string) :
  _clean_filename name <> ""
  /\ all_chars name_char (_clean_filename name) = true
  /\ (forall t, _clean_filename name <> String "_" t)
  /\ endswith "_" (_clean_filename name) = false.
Proof.
  destruct (clean_filename_cases name) as [-> | (v & Hv)].
  - repeat split; try discriminate.
  - split; [| split; [| split]].
    + apply clean_filename_nonempty.
    + rewrite Hv. unfold strip_char.
      apply all_chars_rstrip, all_chars_lstrip, all_chars_sub_underscores,
        all_chars_sub_disallowed.
    + intros t Ht. rewrite Hv in Ht. apply strip_char_head in Ht.
      rewrite Ascii.eqb_refl in Ht. discriminate.
    + rewrite Hv. unfold strip_char. apply endswith_rstrip.
Qed.

(** X1. A cleaned file name is never empty, holds only letters, digits, dots,
    underscores and hyphens (so no path separator and no white space), and
    neither starts nor ends with an underscore. *)
Theorem clean_filename_safe (name : string) :
  _clean_filename name <> ""
  /\ all_chars name_char (_clean_filename name) = true
  /\ (forall t, _clean_filename name <> String "_" t)
  /\ endswith "_" (_clean_filename name) = false.
Proof. exact (clean_filename_shape name). Qed.

Lemma name_char_plain (c : ascii) :
  name_char c = true ->
  is_space c = false /\ Ascii.eqb c "\" = false /\ Ascii.eqb c "/" = false
  /\ Ascii.eqb c newline = false.
Proof.
  destruct c as [[] [] [] [] [] [] [] []]; vm_compute; intros H;
    try discriminate H; repeat split.
Qed.

Lemma all_chars_impl (p q : ascii -> bool) (s : string) :
  (forall c, p c = true -> q c = true) -> all_chars p s = true -> all_chars q s = true.
Proof.
  intros Hpq. induction s as [| c s IH]; [reflexivity |]. cbn. intros H.
  apply andb_prop in H. destruct H as [Hc Hs]. rewrite (Hpq c Hc), (IH Hs). reflexivity.
Qed.

Lemma lstrip_by_none (p : ascii -> bool) (s : string) :
  all_chars (fun c => negb (p c)) s = true -> lstrip_by p s = s.
Proof.
  destruct s as [| c s]; [reflexivity |]. cbn. intros H.
  apply andb_prop in H. destruct H as [Hc _]. destruct (p c); [discriminate | reflexivity].
Qed.

Lemma rstrip_by_none (p : ascii -> bool) (s : string) :
  all_chars (fun c => negb (p c)) s = true -> rstrip_by p s = s.
Proof.
  induction s as [| c s IH]; [reflexivity |]. cbn [all_chars]. intros H.
  apply andb_prop in H. destruct H as [Hc Hs]. rewrite rstrip_by_cons, (IH Hs).
  destruct s; [| reflexivity]. destruct (p c); [discriminate | reflexivity].
Qed.

Lemma replace_char_none (a b : ascii) (s : string) :
  all_chars (fun c => negb (Ascii.eqb c a)) s = true -> replace_char a b s = s.
Proof.
  induction s as [| c s IH]; [reflexivity |]. cbn. intros H.
  apply andb_prop in H. destruct H as [Hc Hs]. rewrite (IH Hs).
  destruct (Ascii.eqb c a); [discriminate | reflexivity].
Qed.

Lemma contains_none (a : ascii) (s : string) :
  all_chars (fun c => negb (Ascii.eqb c a)) s = true -> contains a s = false.
Proof.
  induction s as [| c s IH]; [reflexivity |]. cbn. intros H.
  apply andb_prop in H. destruct H as [Hc Hs]. rewrite (IH Hs).
  destruct (Ascii.eqb c a); [discriminate | reflexivity].
Qed.

Lemma last_segment_none (a : ascii) (s : string) :
  contains a s = false -> last_segment a s = s.
Proof.
  destruct s as [| c s]; [reflexivity |]. intros H.
  change (last_segment a (String c s))
    with (if contains a (String c s) then last_segment a s else String c s).
  rewrite H. reflexivity.
Qed.

Lemma sub_disallowed_none (b : bool) (s : string) :
  all_chars name_char s = true -> sub_disallowed b s = s.
Proof.
  revert b. induction s as [| c s IH]; intros b; [reflexivity |]. cbn. intros H.
  apply andb_prop in H. destruct H as [Hc Hs]. rewrite Hc, (IH false Hs). reflexivity.
Qed.

Lemma spaced_sub_underscores (b : bool) (s : string) :
  spaced_underscores b (sub_underscores b s) = true.
Proof.
  revert b. induction s as [| c s IH]; intros b; [reflexivity |]. cbn [sub_underscores].
  destruct (Ascii.eqb c "_") eqn:He.
  - destruct b; [apply IH |]. cbn. apply IH.
  - cbn. rewrite He. apply IH.
Qed.

Lemma spaced_weaken (s : string) :
  spaced_underscores true s = true -> spaced_underscores false s = true.
Proof.
  destruct s as [| c s]; [reflexivity |]. cbn.
  destruct (Ascii.eqb c "_"); [discriminate | auto].
Qed.

Lemma spaced_lstrip (b : bool) (s : string) :
  spaced_underscores b s = true ->
  spaced_underscores false (lstrip_by (Ascii.eqb "_") s) = true.
Proof.
  revert b. induction s as [| c s IH]; intros b; [reflexivity |].
  cbn [spaced_underscores lstrip_by].
  rewrite (Ascii.eqb_sym "_" c).
  destruct (Ascii.eqb c "_") eqn:He.
  - intros H. apply andb_prop in H. destruct H as [_ H]. apply (IH true), H.
  - intros H. cbn [spaced_underscores]. rewrite He. exact H.
Qed.

Lemma spaced_rstrip (b : bool) (s : string) :
  spaced_underscores b s = true ->
  spaced_underscores b (rstrip_by (Ascii.eqb "_") s) = true.
Proof.
  revert b. induction s as [| c s IH]; intros b; [reflexivity |].
  cbn [spaced_underscores]. rewrite rstrip_by_cons.
  destruct (Ascii.eqb c "_") eqn:He.
  - intros H. apply andb_prop in H. destruct H as [Hb H]. specialize (IH true H).
    destruct (rstrip_by (Ascii.eqb "_") s) as [| d t].
    + rewrite (Ascii.eqb_sym "_" c), He. reflexivity.
    + cbn [spaced_underscores]. rewrite He, Hb. exact IH.
  - intros H. specialize (IH false H).
    destruct (rstrip_by (Ascii.eqb "_") s) as [| d t].
    + rewrite (Ascii.eqb_sym "_" c), He. cbn [spaced_underscores]. rewrite He. reflexivity.
    + cbn [spaced_underscores]. rewrite He. exact IH.
Qed.

Lemma sub_underscores_none (b : bool) (s : string) :
  spaced_underscores b s = true -> sub_underscores b s = s.
Proof.
  revert b. induction s as [| c s IH]; intros b; [reflexivity |]. cbn.
  destruct (Ascii.eqb c "_") eqn:He.
  - intros H. apply andb_prop in H. destruct H as [Hb H].
    destruct b; [discriminate |]. rewrite (IH true H).
    apply Ascii.eqb_eq in He. subst c. reflexivity.
  - intros H. rewrite (IH false H). reflexivity.
Qed.

(** X2. Cleaning a cleaned file name changes nothing. *)
Theorem clean_filename_idempotent (name : string) :
  _clean_filename (_clean_filename name) = _clean_filename name.
Proof.
  pose proof (clean_filename_shape name) as (Hne & Hall & _ & _).
  destruct (clean_filename_cases name) as [-> | (v & Hv)]; [reflexivity |].
  set (r := _clean_filename name) in *.
  assert (Hsp : all_chars (fun c => negb (is_space c)) r = true).
  { apply (all_chars_impl name_char); [| exact Hall].
    intros c Hc. destruct (name_char_plain c Hc) as (-> & _). reflexivity. }
  assert (Hbs : all_chars (fun c => negb (Ascii.eqb c "\")) r = true).
  { apply (all_chars_impl name_char); [| exact Hall].
    intros c Hc. destruct (name_char_plain c Hc) as (_ & -> & _). reflexivity. }
  assert (Hsl : all_chars (fun c => negb (Ascii.eqb c "/")) r = true).
  { apply (all_chars_impl name_char); [| exact Hall].
    intros c Hc. destruct (name_char_plain c Hc) as (_ & _ & -> & _). reflexivity. }
  assert (Hus : spaced_underscores false r = true).
  { rewrite Hv. unfold strip_char.
    apply spaced_rstrip, (spaced_lstrip false), spaced_sub_underscores. }
  assert (Hst : strip_char "_" r = r).
  { rewrite Hv. unfold strip_char. apply strip_by_idem. }
  unfold _clean_filename at 1. cbv zeta. unfold strip.
  rewrite (lstrip_by_none _ _ Hsp), (rstrip_by_none _ _ Hsp).
  rewrite (replace_char_none _ _ _ Hbs).
  rewrite (last_segment_none _ _ (contains_none _ _ Hsl)).
  rewrite (sub_disallowed_none _ _ Hall), (sub_underscores_none _ _ Hus), Hst.
  destruct r; [contradiction | reflexivity].
Qed.

(** ** Name and extension *)

Lemma span_alnum_app (s a b : string) :
  span_alnum s = (a, b) -> s = a ++ b /\ all_chars is_alnum a = true.
Proof.
  revert a b. induction s as [| c s IH]; intros a b.
  - intros [= <- <-]. auto.
  - cbn [span_alnum]. destruct (is_alnum c) eqn:Hc.
    + destruct (span_alnum s) as [a' b'] eqn:Hs. intros [= <- <-].
      destruct (IH a' b' eq_refl) as [-> Ha]. cbn. rewrite Hc, Ha. auto.
    + intros [= <- <-]. auto.
Qed.

Lemma at_end_plain (s : string) :
  at_end s = true -> contains newline s = false -> s = "".
Proof.
  destruct s as [| c [| d t]]; [reflexivity | | discriminate].
  cbn. intros ->. discriminate.
Qed.

Lemma contains_app_r (c : ascii) (a b : string) :
  contains c (a ++ b) = false -> contains c b = false.
Proof.
  induction a as [| d a IH]; [auto |]. cbn. intros H.
  apply orb_false_elim in H. apply IH, H.
Qed.

Lemma match_ext_shape (s e : string) :
  match_ext s = Some e ->
  (exists run, e = String "." run /\ run <> "" /\ all_chars is_alnum run = true)
  /\ (contains newline s = false -> s = e).
Proof.
  unfold match_ext. destruct s as [| c s]; [discriminate |].
  destruct (Ascii.eqb_spec c "."); [subst c | destruct c as [[] [] [] [] [] [] [] []]; try discriminate; contradiction].
  destruct (span_alnum s) as [run rest] eqn:Hs.
  destruct (span_alnum_app _ _ _ Hs) as [-> Hrun].
  destruct run as [| r0 run]; [discriminate |].
  destruct (at_end rest) eqn:He; [| discriminate].
  intros [= <-]. split.
  - eexists. split; [reflexivity |]. split; [discriminate | exact Hrun].
  - intros Hn. cbn [contains] in Hn. apply orb_false_elim in Hn. destruct Hn as [_ Hn].
    apply contains_app_r in Hn. rewrite (at_end_plain rest He Hn).
    f_equal. clear. induction (String r0 run) as [| x y IH]; cbn; [reflexivity | f_equal; exact IH].
Qed.

Lemma match_name_ext_eq (s : string) :
  match_name_ext s
  = match match_ext s with
    | Some ext => Some ("", ext)
    | None =>
        if at_end s then Some ("", "")
        else match s with
             | EmptyString => None
             | String c s' =>
                 if Ascii.eqb c newline then None
                 else match match_name_ext s' with
                      | Some (b, e) => Some (String c b, e)
                      | None => None
                      end
             end
    end.
Proof. destruct s; reflexivity. Qed.

Lemma match_name_ext_parts (s : string) :
  contains newline s = false ->
  exists b e,
    match_name_ext s = Some (b, e) /\ b ++ e = s
    /\ (e = "" \/ exists run, e = String "." run /\ run <> "" /\ all_chars is_alnum run = true).
Proof.
  induction s as [| c s IH]; intros Hn.
  - exists "", "". repeat split. left. reflexivity.
  - rewrite match_name_ext_eq.
    destruct (match_ext (String c s)) as [ext |] eqn:Hm.
    + destruct (match_ext_shape _ _ Hm) as [Hshape Heq].
      exists "", ext. split; [reflexivity |]. split; [symmetry; apply Heq, Hn |].
      right. exact Hshape.
    + destruct (at_end (String c s)) eqn:He.
      * pose proof (at_end_plain _ He Hn) as E. discriminate E.
      * cbn [contains] in Hn. apply orb_false_elim in Hn. destruct Hn as [Hc Hn].
        rewrite Hc. destruct (IH Hn) as (b & e & -> & Hbe & Hsh).
        exists (String c b), e. split; [reflexivity |]. split; [cbn; rewrite Hbe; reflexivity |].
        exact Hsh.
Qed.

(** X3. Splitting a cleaned name loses nothing: base and extension put
    together give the name back, and the extension is empty or a dot followed
    by one or more letters and digits. *)
Theorem split_clean_name_parts (name : string) :
  let '(base, ext) := _split_name_ext (_clean_filename name) in
  base ++ ext = _clean_filename name
  /\ (ext = "" \/ exists run, ext = String "." run /\ run <> "" /\ all_chars is_alnum run = true).
Proof.
  pose proof (clean_filename_shape name) as (_ & Hall & _ & _).
  assert (Hn : contains newline (_clean_filename name) = false).
  { apply contains_none. apply (all_chars_impl name_char); [| exact Hall].
    intros c Hc. destruct (name_char_plain c Hc) as (_ & _ & _ & ->). reflexivity. }
  destruct (match_name_ext_parts _ Hn) as (b & e & Hm & Hbe & Hsh).
  unfold _split_name_ext. rewrite Hm. split; assumption.
Qed.

(** ** The output format *)

Lemma is_space_lower (c : ascii) : is_space (lower_char c) = is_space c.
Proof. destruct c as [[] [] [] [] [] [] [] []]; reflexivity. Qed.

Lemma lower_char_idem (c : ascii) : lower_char (lower_char c) = lower_char c.
Proof. destruct c as [[] [] [] [] [] [] [] []]; reflexivity. Qed.

Lemma lower_idem (s : string) : lower (lower s) = lower s.
Proof.
  induction s as [| c s IH]; [reflexivity |]. cbn. rewrite lower_char_idem, IH. reflexivity.
Qed.

Lemma lstrip_lower (s : string) :
  lstrip_by is_space (lower s) = lower (lstrip_by is_space s).
Proof.
  induction s as [| c s IH]; [reflexivity |]. cbn [lower lstrip_by].
  rewrite is_space_lower. destruct (is_space c); [exact IH | reflexivity].
Qed.

Lemma rstrip_lower (s : string) :
  rstrip_by is_space (lower s) = lower (rstrip_by is_space s).
Proof.
  induction s as [| c s IH]; [reflexivity |]. cbn [lower].
  rewrite !rstrip_by_cons, IH, is_space_lower.
  destruct (rstrip_by is_space s) as [| d t]; cbn [lower].
  - destruct (is_space c); reflexivity.
  - reflexivity.
Qed.

Lemma strip_lower (s : string) : strip (lower s) = lower (strip s).
Proof. unfold strip. rewrite lstrip_lower, rstrip_lower. reflexivity. Qed.

Lemma normalize_format_range (fmt : string) :
  In (_normalize_format fmt) ["jpeg"; "png"; "webp"; ""].
Proof.
  unfold _normalize_format.
  destruct (_ || _); [cbn; auto |].
  destruct (String.eqb _ "png"); [cbn; auto |].
  destruct (String.eqb _ "webp"); cbn; auto.
Qed.

(** X4. The normalised format is one of [jpeg], [png], [webp] or the empty
    string; it does not depend on the case of the request or on white space
    around it, and normalising twice is normalising once. *)
Theorem normalize_format_insensitive (fmt : string) :
  In (_normalize_format fmt) ["jpeg"; "png"; "webp"; ""]
  /\ _normalize_format (lower fmt) = _normalize_format fmt
  /\ _normalize_format (strip fmt) = _normalize_format fmt
  /\ _normalize_format (_normalize_format fmt) = _normalize_format fmt.
Proof.
  split; [apply normalize_format_range |]. split; [| split].
  - unfold _normalize_format. rewrite strip_lower, lower_idem. reflexivity.
  - unfold _normalize_format. rewrite strip_idem. reflexivity.
  - pose proof (normalize_format_range fmt) as H. cbn [In] in H.
    destruct H as [<- | [<- | [<- | [<- | []]]]]; reflexivity.
Qed.

Local Close Scope string_scope.

(** ** Keeping the aspect ratio *)

(** A dimension scaled by a factor that is [t / d] up to one rounding is a
    nearest integer to [n * t / d], and at least 1. *)
Lemma scale_dim_nearest (n t d : Z) (scale : Q) :
  0 <= n -> 0 <= t -> 1 <= d -> n * t <= 2 ^ 50 ->
  (0 <= scale)%Q ->
  (inject_Z t * (1 - u53) <= scale * inject_Z d)%Q ->
  (scale * inject_Z d <= inject_Z t * (1 + u53))%Q ->
  exists r, scale_dim n scale = Z.max 1 r /\ - d <= 2 * (d * r - n * t) <= d.
Proof.
  intros Hn Ht Hd Hb Hs0 Hlo Hhi. unfold scale_dim, float_mul, float_of_int.
  pose proof (inject_Z_nonneg n Hn) as Hnq. pose proof (inject_Z_nonneg t Ht) as Htq.
  assert (Hdq : (1 <= inject_Z d)%Q) by (change 1%Q with (inject_Z 1); rewrite <- Zle_Qle; lia).
  pose proof (fl_bounds (inject_Z n) Hnq) as [Hf1 Hf2].
  pose proof (fl_nonneg (inject_Z n) Hnq) as Hf0.
  set (fn := fl (inject_Z n)) in *.
  assert (Hp0 : (0 <= fn * scale)%Q) by nra.
  pose proof (fl_bounds (fn * scale) Hp0) as [Hy1 Hy2].
  set (y := fl (fn * scale)) in *.
  exists (py_round y). split; [reflexivity |].
  pose proof (py_round_near y) as [Hr1 Hr2].
  assert (Hxb : (inject_Z n * inject_Z t <= 1125899906842624)%Q).
  { rewrite <- inject_Z_mult. change 1125899906842624%Q with (inject_Z (2 ^ 50)).
    rewrite <- Zle_Qle. exact Hb. }
  assert (Hlt : (inject_Z (2 * (d * py_round y - n * t)) < inject_Z (d + 1))%Q).
  { rewrite inject_Z_mult. unfold Z.sub.
    rewrite !inject_Z_plus, inject_Z_opp, !inject_Z_mult.
    change (inject_Z 2) with 2%Q. change (inject_Z 1) with 1%Q.
    set (r := inject_Z (py_round y)) in *.
    set (nq := inject_Z n) in *. set (tq := inject_Z t) in *. set (dq := inject_Z d) in *.
    clearbody r nq tq dq y fn. unfold u53 in *.
    assert (H1 : (fn * (scale * dq) <= nq * tq * ((1 + (1 # 9007199254740992)) * (1 + (1 # 9007199254740992))))%Q) by nra.
    assert (H2 : (y * dq <= nq * tq * ((1 + (1 # 9007199254740992)) * (1 + (1 # 9007199254740992)) * (1 + (1 # 9007199254740992))))%Q) by nra.
    nra. }
  assert (Hgt : (inject_Z (- (d + 1)) < inject_Z (2 * (d * py_round y - n * t)))%Q).
  { rewrite inject_Z_mult. unfold Z.sub.
    rewrite inject_Z_opp, !inject_Z_plus, inject_Z_opp, !inject_Z_mult.
    change (inject_Z 2) with 2%Q. change (inject_Z 1) with 1%Q.
    set (r := inject_Z (py_round y)) in *.
    set (nq := inject_Z n) in *. set (tq := inject_Z t) in *. set (dq := inject_Z d) in *.
    clearbody r nq tq dq y fn. unfold u53 in *.
    assert (H1 : (nq * tq * ((1 - (1 # 9007199254740992)) * (1 - (1 # 9007199254740992))) <= fn * (scale * dq))%Q) by nra.
    assert (H2 : (nq * tq * ((1 - (1 # 9007199254740992)) * (1 - (1 # 9007199254740992)) * (1 - (1 # 9007199254740992))) <= y * dq)%Q) by nra.
    nra. }
  rewrite <- Zlt_Qlt in Hlt, Hgt. lia.
Qed.

Lemma int_truediv_self (n : Z) :
  1 <= n -> (1 - u53 <= int_truediv n n /\ int_truediv n n <= 1 + u53)%Q.
Proof.
  intros Hn. pose proof (int_truediv_bounds n n ltac:(lia) Hn) as (_ & H1 & H2).
  assert (Hq : (1 <= inject_Z n)%Q) by (change 1%Q with (inject_Z 1); rewrite <- Zle_Qle; lia).
  set (a := int_truediv n n) in *. set (q := inject_Z n) in *. clearbody a q.
  unfold u53 in *. split; nra.
Qed.

Lemma scale_dim_unit (n : Z) (scale : Q) :
  1 <= n <= 2 ^ 50 -> (1 - u53 <= scale)%Q -> (scale <= 1 + u53)%Q ->
  scale_dim n scale = n.
Proof.
  intros Hn Hlo Hhi.
  assert (H0 : (0 <= scale)%Q) by (unfold u53 in *; lra).
  assert (H1 : (inject_Z 1 * (1 - u53) <= scale * inject_Z 1)%Q)
    by (change (inject_Z 1) with 1%Q; lra).
  assert (H2 : (scale * inject_Z 1 <= inject_Z 1 * (1 + u53))%Q)
    by (change (inject_Z 1) with 1%Q; lra).
  destruct (scale_dim_nearest n 1 1 scale ltac:(lia) ltac:(lia) ltac:(lia) ltac:(lia)
              H0 H1 H2) as (r & -> & Hr).
  lia.
Qed.

(** X6. With one target dimension and the aspect ratio kept, that dimension is
    reached exactly and the other one is a nearest integer to its
    proportional value, raised to 1 if smaller. *)
Theorem one_target_keeps_ratio (ow oh t : Z) :
  1 <= ow -> 1 <= oh -> 1 <= t <= 20000 ->
  (oh * t <= 2 ^ 50 ->
   exists r, _fit_size_keep_ratio ow oh (Some t) None = Ok (t, Z.max 1 r)
             /\ - ow <= 2 * (ow * r - oh * t) <= ow)
  /\ (ow * t <= 2 ^ 50 ->
      exists r, _fit_size_keep_ratio ow oh None (Some t) = Ok (Z.max 1 r, t)
                /\ - oh <= 2 * (oh * r - ow * t) <= oh).
Proof.
  intros How Hoh Ht. split; intros Hb; unfold _fit_size_keep_ratio.
  - replace (ow =? 0) with false by (symmetry; apply Z.eqb_neq; lia).
    pose proof (int_truediv_bounds t ow ltac:(lia) How) as (Ha0 & Ha1 & Ha2).
    set (a := int_truediv t ow) in *.
    destruct (scale_dim_nearest oh t ow a) as (r & Er & Hr); try lia; try assumption.
    exists r. rewrite Er.
    rewrite (scale_dim_bounds ow t a a a); try lia; try assumption; try apply Qle_refl.
    split; [reflexivity | exact Hr].
  - replace (oh =? 0) with false by (symmetry; apply Z.eqb_neq; lia).
    pose proof (int_truediv_bounds t oh ltac:(lia) Hoh) as (Ha0 & Ha1 & Ha2).
    set (a := int_truediv t oh) in *.
    destruct (scale_dim_nearest ow t oh a) as (r & Er & Hr); try lia; try assumption.
    exists r. rewrite Er.
    rewrite (scale_dim_bounds oh t a a a); try lia; try assumption; try apply Qle_refl.
    split; [reflexivity | exact Hr].
Qed.

(** X7. With both target dimensions and the aspect ratio kept, one dimension
    is its target and the other a nearest integer to its proportional value,
    raised to 1 if smaller. *)
Theorem fit_inside_keeps_ratio (ow oh tw th : Z) :
  1 <= ow -> 1 <= oh -> 1 <= tw <= 20000 -> 1 <= th <= 20000 ->
  oh * tw <= 2 ^ 50 -> ow * th <= 2 ^ 50 ->
  (exists r, _fit_size_keep_ratio ow oh (Some tw) (Some th) = Ok (tw, Z.max 1 r)
             /\ - ow <= 2 * (ow * r - oh * tw) <= ow)
  \/ (exists r, _fit_size_keep_ratio ow oh (Some tw) (Some th) = Ok (Z.max 1 r, th)
                /\ - oh <= 2 * (oh * r - ow * th) <= oh).
Proof.
  intros How Hoh Htw Hth Hbw Hbh. unfold _fit_size_keep_ratio.
  replace (ow =? 0) with false by (symmetry; apply Z.eqb_neq; lia).
  replace (oh =? 0) with false by (symmetry; apply Z.eqb_neq; lia).
  cbn [orb].
  pose proof (int_truediv_bounds tw ow ltac:(lia) How) as (Ha0 & Ha1 & Ha2).
  pose proof (int_truediv_bounds th oh ltac:(lia) Hoh) as (Hb0 & Hb1 & Hb2).
  set (a := int_truediv tw ow) in *. set (b := int_truediv th oh) in *.
  destruct (float_min_cases a b) as [[-> _] | [-> _]].
  - left. destruct (scale_dim_nearest oh tw ow a) as (r & Er & Hr); try lia; try assumption.
    exists r. rewrite Er.
    rewrite (scale_dim_bounds ow tw a a a); try lia; try assumption; try apply Qle_refl.
    split; [reflexivity | exact Hr].
  - right. destruct (scale_dim_nearest ow th oh b) as (r & Er & Hr); try lia; try assumption.
    exists r. rewrite Er.
    rewrite (scale_dim_bounds oh th b b b); try lia; try assumption; try apply Qle_refl.
    split; [reflexivity | exact Hr].
Qed.

Section Resize.
Context {imaging : Imaging}.

(** X8. Asking for the size an image already has, on one axis or on both,
    with or without the aspect ratio kept, returns the image itself: no
    resampling takes place. *)
Theorem resize_to_own_size_is_noop (img : image) (ow oh : Z) (tw th : option Z)
    (keep_ratio : bool) :
  size img = (ow, oh) -> 1 <= ow <= 2 ^ 50 -> 1 <= oh <= 2 ^ 50 ->
  tw = None \/ tw = Some ow -> th = None \/ th = Some oh ->
  _resize_image img tw th keep_ratio = Ok img.
Proof.
  intros Hsize How Hoh Htw Hth. unfold _resize_image. rewrite Hsize.
  pose proof (int_truediv_self ow ltac:(lia)) as [Ha1 Ha2].
  pose proof (int_truediv_self oh ltac:(lia)) as [Hb1 Hb2].
  assert (Hres : resolve_size ow oh tw th keep_ratio = Ok (ow, oh)).
  { unfold resolve_size, _fit_size_keep_ratio.
    replace (ow =? 0) with false by (symmetry; apply Z.eqb_neq; lia).
    replace (oh =? 0) with false by (symmetry; apply Z.eqb_neq; lia).
    cbn [orb].
    destruct Htw as [-> | ->], Hth as [-> | ->]; [reflexivity | | |];
      (destruct keep_ratio;
       [| unfold int_or; destruct ow, oh; try lia; reflexivity]).
    - rewrite !scale_dim_unit; auto.
    - rewrite !scale_dim_unit; auto.
    - destruct (float_min_cases (int_truediv ow ow) (int_truediv oh oh)) as [[-> _] | [-> _]];
        rewrite !scale_dim_unit; auto. }
  rewrite Hres. rewrite !Z.eqb_refl.
  destruct tw, th; reflexivity.
Qed.

End Resize.

(** X9. When size * pct is a multiple of 100 the percentage target is the
    exact quotient (raised to 1 if it is 0): the float arithmetic loses
    nothing there. *)
Theorem percentage_exact_multiple (n pct : Z) :
  0 <= n -> 0 <= pct -> n * pct <= 2 ^ 50 ->
  (100 | n * pct) ->
  pct_dim n pct = Z.max 1 (n * pct / 100).
Proof.
  intros Hn Hp Hb [k Hk].
  destruct (pct_dim_nearest n pct Hn Hp Hb) as (r & -> & Hr).
  rewrite Hk, Z.div_mul by lia. f_equal. lia.
Qed.

Local Open Scope string_scope.

(** ** The imaging library of the examples honours conversions *)

#[export] Instance toy_laws : ImagingLaws (imaging := Toy.toy_imaging).
Proof. split; reflexivity. Qed.

(** ** Validation and encoding *)

(** X5. [_validate_dims] passes exactly when every dimension given lies in
    (0, 20000]; whatever it raises is an HTTP 400. *)
Theorem validate_dims_accepts (w h : option Z) :
  (_validate_dims w h = Ok tt
   <-> (forall n, w = Some n -> 0 < n <= 20000) /\ (forall n, h = Some n -> 0 < n <= 20000))
  /\ (forall e, _validate_dims w h = Raise e -> exists detail, e = HTTPException 400 detail).
Proof.
  assert (Hone : forall x,
             (validate_dim x = Ok tt <-> forall n, x = Some n -> 0 < n <= 20000)
             /\ (forall e, validate_dim x = Raise e -> exists detail, e = HTTPException 400 detail)).
  { intros [n |]; unfold validate_dim, MAX_DIMENSION.
    - destruct (n <=? 0)%Z eqn:H0.
      + apply Z.leb_le in H0. split.
        * split; [discriminate |]. intros H. specialize (H n eq_refl). lia.
        * intros e [= <-]. eauto.
      + apply Z.leb_gt in H0. destruct (20000 <? n)%Z eqn:H1.
        * apply Z.ltb_lt in H1. split.
          -- split; [discriminate |]. intros H. specialize (H n eq_refl). lia.
          -- intros e [= <-]. eauto.
        * apply Z.ltb_ge in H1. split.
          -- split; [| reflexivity]. intros _ m [= <-]. lia.
          -- discriminate.
    - split; [| discriminate]. split; [| reflexivity]. intros _ n. discriminate. }
  unfold _validate_dims.
  destruct (Hone w) as [Hw1 Hw2]. destruct (Hone h) as [Hh1 Hh2].
  destruct (validate_dim w) as [[] | e] eqn:Ew.
  - split.
    + rewrite Hh1. split; [intros H; split; [apply Hw1; reflexivity | exact H] | intros [_ H]; exact H].
    + exact Hh2.
  - split.
    + split; [discriminate |]. intros [H _]. apply Hw1 in H. discriminate.
    + intros e' [= <-]. apply Hw2. reflexivity.
Qed.

Section Encoding.
Context {imaging : Imaging}.

(** X10. For [jpeg], [webp] and [png] the encoder is called, with a quality in
    [[10, 100]] or an effort level in [[0, 9]] whatever quality was asked for;
    any other format name raises HTTP 400; and a format that came out of
    [_normalize_format] non-empty is never refused. *)
Theorem save_image_guard (img : image) (out_fmt : string) (quality : Z) :
  (out_fmt = "jpeg" \/ out_fmt = "webp" \/ out_fmt = "png" ->
   exists args, _save_image img out_fmt quality = Ok (save img args) /\ args_in_range args)
  /\ (out_fmt <> "jpeg" -> out_fmt <> "webp" -> out_fmt <> "png" ->
      _save_image img out_fmt quality
      = Raise (HTTPException 400 "Unsupported output format."))
  /\ (forall requested,
        _normalize_format requested = out_fmt -> out_fmt <> "" ->
        exists args, _save_image img out_fmt quality = Ok (save img args) /\ args_in_range args).
Proof.
  assert (Hsup : out_fmt = "jpeg" \/ out_fmt = "webp" \/ out_fmt = "png" ->
                 exists args, _save_image img out_fmt quality = Ok (save img args)
                              /\ args_in_range args).
  { intros [-> | [-> | ->]]; eexists; (split; [reflexivity |]); cbn.
    - repeat split; lia.
    - split; [lia | reflexivity].
    - split; [reflexivity |]. unfold png_compress_level. lia. }
  split; [exact Hsup |]. split.
  - intros H1 H2 H3. unfold _save_image.
    destruct (String.eqb_spec out_fmt "jpeg"); [contradiction |].
    destruct (String.eqb_spec out_fmt "webp"); [contradiction |].
    destruct (String.eqb_spec out_fmt "png"); [contradiction |]. reflexivity.
  - intros requested Hn Hne. apply Hsup.
    pose proof (normalize_format_range requested) as Hr. rewrite Hn in Hr. cbn [In] in Hr.
    destruct Hr as [<- | [<- | [<- | [<- | []]]]]; auto. contradiction.
Qed.

End Encoding.

(** ** The pipeline of one image *)

Section PipelineLaws.
Context {imaging : Imaging} {laws : ImagingLaws}.

Lemma prepare_for_format_size (img : image) (out_fmt : string) :
  size (_prepare_for_format img out_fmt) = size img.
Proof.
  unfold _prepare_for_format.
  destruct (String.eqb out_fmt "jpeg").
  - destruct (_ || _); [apply size_flatten |].
    destruct (String.eqb (mode img) "RGB"); [reflexivity | apply size_convert].
  - destruct (_ || _); [| reflexivity].
    destruct (String.eqb (mode img) "P"); [apply size_convert | reflexivity].
Qed.

(** X11. Given an imaging library that honours conversions, preparing for
    JPEG always ends in mode RGB, preparing for PNG or WEBP never leaves a
    palette image, the size is kept, and preparing twice is preparing once. *)
Theorem prepare_for_format_result (img : image) (out_fmt : string) :
  mode (_prepare_for_format img "jpeg") = "RGB"
  /\ (out_fmt = "png" \/ out_fmt = "webp" -> mode (_prepare_for_format img out_fmt) <> "P")
  /\ size (_prepare_for_format img out_fmt) = size img
  /\ _prepare_for_format (_prepare_for_format img out_fmt) out_fmt
     = _prepare_for_format img out_fmt.
Proof.
  assert (Hjpeg : mode (_prepare_for_format img "jpeg") = "RGB").
  { unfold _prepare_for_format. cbn [String.eqb Ascii.eqb Bool.eqb].
    destruct (_ || _); [apply mode_flatten |].
    destruct (String.eqb_spec (mode img) "RGB"); [assumption | apply mode_convert]. }
  assert (Halpha : out_fmt = "png" \/ out_fmt = "webp" ->
                   mode (_prepare_for_format img out_fmt) <> "P").
  { intros [-> | ->]; unfold _prepare_for_format; cbn [String.eqb Ascii.eqb Bool.eqb orb];
      (destruct (String.eqb_spec (mode img) "P"); [rewrite mode_convert; discriminate | assumption]). }
  split; [exact Hjpeg |]. split; [exact Halpha |]. split.
  - apply prepare_for_format_size.
  - destruct (String.eqb_spec out_fmt "jpeg") as [-> | Hj].
    + set (r := _prepare_for_format img "jpeg") in *.
      unfold _prepare_for_format. cbn [String.eqb Ascii.eqb Bool.eqb]. rewrite Hjpeg.
      reflexivity.
    + clear Hjpeg. destruct (String.eqb_spec out_fmt "png") as [-> | Hp].
      * specialize (Halpha (or_introl eq_refl)).
        set (r := _prepare_for_format img "png") in *.
        unfold _prepare_for_format. cbn [String.eqb Ascii.eqb Bool.eqb orb].
        destruct (String.eqb_spec (mode r) "P"); [contradiction | reflexivity].
      * destruct (String.eqb_spec out_fmt "webp") as [-> | Hw].
        -- specialize (Halpha (or_intror eq_refl)).
           set (r := _prepare_for_format img "webp") in *.
           unfold _prepare_for_format. cbn [String.eqb Ascii.eqb Bool.eqb orb].
           destruct (String.eqb_spec (mode r) "P"); [contradiction | reflexivity].
        -- unfold _prepare_for_format.
           destruct (String.eqb_spec out_fmt "jpeg"); [contradiction |].
           destruct (String.eqb_spec out_fmt "png"); [contradiction |].
           destruct (String.eqb_spec out_fmt "webp"); [contradiction |]. reflexivity.
Qed.

Lemma resize_image_size (img img' : image) (tw th : option Z) (keep_ratio : bool) :
  _resize_image img tw th keep_ratio = Ok img' ->
  resolve_size (fst (size img)) (snd (size img)) tw th keep_ratio = Ok (size img').
Proof.
  unfold _resize_image. destruct (size img) as [ow oh] eqn:Hs. cbn [fst snd].
  destruct (resolve_size ow oh tw th keep_ratio) as [[nw nh] | e] eqn:Hr; [| discriminate].
  assert (Hnone : tw = None -> th = None -> (nw, nh) = (ow, oh)).
  { intros -> ->. cbn in Hr. injection Hr as <- <-. reflexivity. }
  destruct tw as [tw |], th as [th |];
    try (destruct ((nw =? ow) && (nh =? oh))%Z eqn:He;
         [ apply andb_prop in He; destruct He as [H1 H2];
           apply Z.eqb_eq in H1, H2; subst nw nh; intros [= <-]; rewrite Hs; reflexivity
         | intros [= <-]; rewrite size_resize; reflexivity ]).
  intros [= <-]. rewrite Hs, (Hnone eq_refl eq_refl). reflexivity.
Qed.

(** The size [_process_bytes] returns is the size the resolver settles on for
    the decoded image, and the bytes are opened once. *)
Lemma process_bytes_result (data : bytes) (width height : option Z)
    (keep_ratio : bool) (quality : Z) (out_fmt : string)
    (log log' : list event) (out : bytes) (sz : Z * Z) :
  _process_bytes data width height keep_ratio quality out_fmt log = (Ok (out, sz), log') ->
  exists img,
    image_open data = Some img
    /\ _validate_dims width height = Ok tt
    /\ resolve_size (fst (size img)) (snd (size img)) width height keep_ratio = Ok sz
    /\ log' = (log ++ [EvOpen data])%list.
Proof.
  unfold _process_bytes, bind, emit, lift, ret, raise.
  destruct (image_open data) as [img |]; [| discriminate].
  destruct (_validate_dims width height) as [[] | e]; [| discriminate].
  destruct (_resize_image img width height keep_ratio) as [img' | e] eqn:Hr; [| discriminate].
  destruct (_save_image _ out_fmt quality) as [o | e]; [| discriminate].
  intros [= <- <- <-]. exists img. repeat split.
  rewrite prepare_for_format_size. apply resize_image_size, Hr.
Qed.

End PipelineLaws.

(** ** The endpoints *)

Section EndpointOrder.
Context {imaging : Imaging}.

Lemma process_bytes_log (data : bytes) (width height : option Z)
    (keep_ratio : bool) (quality : Z) (out_fmt : string) (log : list event) :
  snd (_process_bytes data width height keep_ratio quality out_fmt log)
  = (log ++ [EvOpen data])%list.
Proof.
  unfold _process_bytes, bind, emit, lift, ret, raise.
  destruct (image_open data) as [img |]; [| reflexivity].
  destruct (_validate_dims width height) as [[] | e]; [| reflexivity].
  destruct (_resize_image img width height keep_ratio) as [img' | e]; [| reflexivity].
  destruct (_save_image _ out_fmt quality) as [o | e]; reflexivity.
Qed.

(** X13. With a supported format the single-file endpoint reports, in this
    order: an empty upload (nothing is decoded), bytes that do not decode, and
    only then a width or height out of range. *)
Theorem single_error_order (file : UploadFile) (width height : option string)
    (keep_ratio : bool) (quality : Z) (out_format : string) :
  _normalize_format out_format <> "" ->
  (content file = [] ->
   run (process_single file width height keep_ratio quality out_format)
   = (Raise (HTTPException 400 "Empty file."), [EvRead file]))
  /\ (content file <> [] -> image_open (content file) = None ->
      run (process_single file width height keep_ratio quality out_format)
      = (Raise (HTTPException 400 ("Could not read image: " ++ open_error (content file))),
         [EvRead file; EvOpen (content file)]))
  /\ (forall img e,
        content file <> [] -> image_open (content file) = Some img ->
        _validate_dims (_parse_int width) (_parse_int height) = Raise e ->
        run (process_single file width height keep_ratio quality out_format)
        = (Raise e, [EvRead file; EvOpen (content file)])).
Proof.
  intros Hfmt. unfold run, process_single.
  destruct (String.eqb_spec (_normalize_format out_format) ""); [contradiction |].
  unfold bind, emit. cbn [app].
  split; [| split].
  - intros ->. reflexivity.
  - intros Hne Hopen. destruct (content file) as [| b data] eqn:Hc; [contradiction |].
    unfold _process_bytes, bind, emit, raise. rewrite Hopen. reflexivity.
  - intros img e Hne Hopen Hval. destruct (content file) as [| b data] eqn:Hc; [contradiction |].
    unfold _process_bytes, bind, emit, raise, lift. rewrite Hopen, Hval. reflexivity.
Qed.

(** X14. A named upload that the single-file endpoint accepts gives, sent
    alone to the batch endpoint without a preset, an archive of one entry:
    the same bytes under the name the single-file answer carries. *)
Theorem batch_of_one_matches_single (file : UploadFile) (c : ascii) (s : string)
    (width height : option string) (keep_ratio : bool) (quality : Z)
    (out_format : string) (resp : Response) (log : list event) :
  filename file = Some (String c s) ->
  run (process_single file width height keep_ratio quality out_format) = (Ok resp, log) ->
  exists name out,
    resp_body resp = ImageBody out
    /\ In ("Content-Disposition", "attachment; filename=" ++ dquote ++ name ++ dquote)
         (headers resp)
    /\ exists resp',
         run (process_zip [file] width height None keep_ratio quality out_format)
         = (Ok resp', (log ++ [EvWrite name out])%list)
         /\ resp_body resp' = ZipBody [(name, out)].
Proof.
  intros Hname. unfold run, process_single, process_zip.
  destruct (String.eqb (_normalize_format out_format) ""); [discriminate |].
  change (preset_of_form None) with (@None Z, @None (Z * Z)). cbv iota beta.
  cbn [zip_loop]. unfold zip_one, batch_dims, bind, emit, ret. cbn [app].
  destruct (content file) as [| b data] eqn:Hc; [discriminate |].
  destruct (_process_bytes (b :: data) _ _ _ _ _ _) as [[[out [nw nh]] | e] log1] eqn:Hp;
    [| discriminate].
  unfold entry_name. rewrite Hname. cbn [str_or namelist map name_in existsb].
  destruct (_split_name_ext _) as [base ext].
  intros [= <- <-]. cbn [resp_body headers].
  exists (base ++ _format_ext (_normalize_format out_format)), out.
  split; [reflexivity |]. split; [left; reflexivity |].
  eexists. split; reflexivity.
Qed.

End EndpointOrder.

(** ** The batch: presets and the log *)

Section BatchMore.
Context {imaging : Imaging}.

Lemma zip_loop_dims_unused (pct : option Z) (fixed : option (Z * Z))
    (w h w' h' : option Z) (keep_ratio : bool) (quality : Z) (out_fmt : string)
    (files : list UploadFile) :
  pct <> None \/ fixed <> None ->
  forall st log,
    zip_loop pct fixed w h keep_ratio quality out_fmt st files log
    = zip_loop pct fixed w' h' keep_ratio quality out_fmt st files log.
Proof.
  intros Hp. induction files as [| f rest IH]; intros st log; [reflexivity |].
  cbn [zip_loop]. unfold bind.
  assert (E : zip_one pct fixed w h keep_ratio quality out_fmt st f log
              = zip_one pct fixed w' h' keep_ratio quality out_fmt st f log).
  { unfold zip_one, batch_dims. destruct st as [zf c].
    destruct pct as [p |]; [reflexivity |].
    destruct fixed as [[a b] |]; [reflexivity |].
    destruct Hp as [Hp | Hp]; contradiction. }
  rewrite E. clear E.
  destruct (zip_one pct fixed w' h' keep_ratio quality out_fmt st f log) as [[st' | e] log'];
    [apply IH | reflexivity].
Qed.

(** X15. When the preset is read as a percentage or as fixed dimensions, the
    width and height fields of the batch request have no effect at all. *)
Theorem preset_overrides_dimensions (files : list UploadFile)
    (width height width' height' preset : option string)
    (keep_ratio : bool) (quality : Z) (out_format : string) :
  preset_of_form preset <> (None, None) ->
  run (process_zip files width height preset keep_ratio quality out_format)
  = run (process_zip files width' height' preset keep_ratio quality out_format).
Proof.
  intros Hp. unfold run, process_zip.
  destruct files as [| f rest]; [reflexivity |].
  destruct (String.eqb (_normalize_format out_format) ""); [reflexivity |].
  destruct (preset_of_form preset) as [pct fixed]. unfold bind.
  rewrite (zip_loop_dims_unused pct fixed (_parse_int width) (_parse_int height)
             (_parse_int width') (_parse_int height')).
  - reflexivity.
  - destruct pct; [left; discriminate |]. destruct fixed; [right; discriminate |].
    contradiction.
Qed.

Lemma reads_app (a b : list event) : reads (a ++ b) = (reads a ++ reads b)%list.
Proof. apply flat_map_app. Qed.

Lemma writes_app (a b : list event) : writes (a ++ b) = (writes a ++ writes b)%list.
Proof. apply flat_map_app. Qed.

Lemma zip_one_log (pct : option Z) (fixed : option (Z * Z)) (w h : option Z)
    (keep_ratio : bool) (quality : Z) (out_fmt : string)
    (zf : list (string * bytes)) (c : Z) (f : UploadFile) (log : list event) :
  exists ext,
    snd (zip_one pct fixed w h keep_ratio quality out_fmt (zf, c) f log) = (log ++ ext)%list
    /\ reads ext = [f]
    /\ forall zf' c',
         fst (zip_one pct fixed w h keep_ratio quality out_fmt (zf, c) f log) = Ok (zf', c') ->
         zf' = (zf ++ writes ext)%list.
Proof.
  unfold zip_one, bind, emit, ret.
  destruct (content f) as [| b data] eqn:Hc.
  - exists [EvRead f]. cbn. repeat split. intros zf' c' [= <- <-].
    rewrite List.app_nil_r. reflexivity.
  - assert (Hdims : exists pre,
               snd (batch_dims pct fixed w h (b :: data) (log ++ [EvRead f])%list)
               = ((log ++ [EvRead f]) ++ pre)%list
               /\ reads pre = [] /\ writes pre = []).
    { unfold batch_dims, bind, emit, ret.
      destruct pct as [p |].
      - exists [EvOpen (b :: data)].
        destruct (image_open (b :: data)) as [im |];
          [destruct (size im) as [ow oh]; unfold lift;
           destruct (pct_target ow p); [destruct (pct_target oh p) |] |];
          cbn; auto.
      - exists []. rewrite List.app_nil_r.
        destruct fixed as [[x y] |]; cbn; auto. }
    destruct Hdims as (pre & Hpre & Hr & Hw).
    destruct (batch_dims pct fixed w h (b :: data) (log ++ [EvRead f])%list)
      as [[[[uw uh] |] | e] log1]; cbn [snd] in Hpre; subst log1.
    + pose proof (process_bytes_log (b :: data) uw uh keep_ratio quality out_fmt
                    ((log ++ [EvRead f]) ++ pre)%list) as Hpl.
      destruct (_process_bytes (b :: data) uw uh keep_ratio quality out_fmt _)
        as [[[out sz] | e] log2]; cbn [snd] in Hpl; subst log2.
      * exists ([EvRead f] ++ pre ++ [EvOpen (b :: data)]
                ++ [EvWrite (entry_name f out_fmt zf c) out])%list.
        cbn [fst snd]. split; [rewrite <- !List.app_assoc; reflexivity |].
        split.
        -- rewrite !reads_app, Hr. reflexivity.
        -- intros zf' c' [= <- <-]. rewrite !writes_app, Hw. reflexivity.
      * exists ([EvRead f] ++ pre ++ [EvOpen (b :: data)])%list.
        cbn [fst snd]. split; [rewrite <- !List.app_assoc; reflexivity |].
        split; [rewrite !reads_app, Hr; reflexivity | discriminate].
    + exists ([EvRead f] ++ pre)%list. cbn [fst snd].
      split; [rewrite <- !List.app_assoc; reflexivity |].
      split; [rewrite !reads_app, Hr; reflexivity |].
      intros zf' c' [= <- <-]. rewrite writes_app, Hw. cbn. rewrite List.app_nil_r. reflexivity.
    + exists ([EvRead f] ++ pre)%list. cbn [fst snd].
      split; [rewrite <- !List.app_assoc; reflexivity |].
      split; [rewrite !reads_app, Hr; reflexivity | discriminate].
Qed.

Lemma zip_loop_log (pct : option Z) (fixed : option (Z * Z)) (w h : option Z)
    (keep_ratio : bool) (quality : Z) (out_fmt : string) (files : list UploadFile) :
  forall zf c log,
  exists ext,
    snd (zip_loop pct fixed w h keep_ratio quality out_fmt (zf, c) files log) = (log ++ ext)%list
    /\ (exists rest, files = (reads ext ++ rest)%list)
    /\ forall zf' c',
         fst (zip_loop pct fixed w h keep_ratio quality out_fmt (zf, c) files log) = Ok (zf', c') ->
         reads ext = files /\ zf' = (zf ++ writes ext)%list.
Proof.
  induction files as [| f rest IH]; intros zf c log.
  - exists []. cbn. rewrite !List.app_nil_r. split; [reflexivity |].
    split; [exists []; reflexivity |]. intros zf' c' [= <- <-]. auto.
  - cbn [zip_loop]. unfold bind.
    destruct (zip_one_log pct fixed w h keep_ratio quality out_fmt zf c f log)
      as (e1 & Hl1 & Hr1 & Hw1).
    destruct (zip_one pct fixed w h keep_ratio quality out_fmt (zf, c) f log)
      as [[[zf1 c1] | e] log1]; cbn [fst snd] in *; subst log1.
    + specialize (Hw1 zf1 c1 eq_refl). subst zf1.
      destruct (IH (zf ++ writes e1)%list c1 (log ++ e1)%list) as (e2 & Hl2 & [rest2 Hr2] & Hw2).
      exists (e1 ++ e2)%list. split; [rewrite Hl2, List.app_assoc; reflexivity |].
      split.
      * exists rest2. rewrite reads_app, Hr1. cbn. f_equal. exact Hr2.
      * intros zf' c' Hok. destruct (Hw2 zf' c' Hok) as [Ha Hb].
        rewrite reads_app, writes_app, Hr1, Ha, Hb, List.app_assoc. auto.
    + exists e1. split; [reflexivity |]. split; [exists rest; rewrite Hr1; reflexivity |].
      discriminate.
Qed.

(** X16. The batch endpoint reads the uploads in the order given, each at
    most once, stopping where it fails; when it answers with an archive it has
    read them all, and the archive holds exactly the entries written, in
    order. *)
Theorem batch_log (files : list UploadFile) (width height preset : option string)
    (keep_ratio : bool) (quality : Z) (out_format : string) :
  let '(r, log) := run (process_zip files width height preset keep_ratio quality out_format) in
  (exists rest, files = (reads log ++ rest)%list)
  /\ forall resp,
       r = Ok resp -> reads log = files /\ resp_body resp = ZipBody (writes log).
Proof.
  unfold run, process_zip.
  destruct files as [| f0 rest0].
  { cbn. split; [exists []; reflexivity | discriminate]. }
  destruct (String.eqb (_normalize_format out_format) "").
  { cbn. split; [eexists; reflexivity | discriminate]. }
  destruct (preset_of_form preset) as [pct fixed]. unfold bind.
  destruct (zip_loop_log pct fixed (_parse_int width) (_parse_int height) keep_ratio quality
              (_normalize_format out_format) (f0 :: rest0) [] 0 [])
    as (ext & Hl & Hpre & Hok).
  destruct (zip_loop _ _ _ _ _ _ _ _ _ _) as [[[zf c] | e] log]; cbn [fst snd app] in *; subst log.
  - destruct (Hok zf c eq_refl) as [Hr ->].
    destruct (Z.eqb c 0); cbn.
    + split; [exact Hpre | discriminate].
    + split; [exact Hpre |]. intros resp [= <-]. auto.
  - split; [exact Hpre | discriminate].
Qed.

End BatchMore.

Section SingleResponse.
Context {imaging : Imaging} {laws : ImagingLaws}.

(** X12. A successful single-file answer has status 200, one of the three
    image media types, and headers that give the size chosen by the dimension
    resolver and the byte counts of the upload and of the output; the upload
    was read once and decoded once. *)
Theorem single_response_reports (file : UploadFile) (width height : option string)
    (keep_ratio : bool) (quality : Z) (out_format : string)
    (resp : Response) (log : list event) :
  run (process_single file width height keep_ratio quality out_format) = (Ok resp, log) ->
  exists img nw nh out,
    image_open (content file) = Some img
    /\ resolve_size (fst (size img)) (snd (size img))
         (_parse_int width) (_parse_int height) keep_ratio = Ok (nw, nh)
    /\ resp_body resp = ImageBody out
    /\ resp_status resp = 200
    /\ In (media_type resp) ["image/jpeg"; "image/png"; "image/webp"]
    /\ In ("X-Output-Width", py_str nw) (headers resp)
    /\ In ("X-Output-Height", py_str nh) (headers resp)
    /\ In ("X-Original-Bytes", py_str (Z.of_nat (List.length (content file)))) (headers resp)
    /\ In ("X-Processed-Bytes", py_str (Z.of_nat (List.length out))) (headers resp)
    /\ log = [EvRead file; EvOpen (content file)].
Proof.
  unfold run, process_single.
  pose proof (normalize_format_range out_format) as Hrange.
  destruct (String.eqb_spec (_normalize_format out_format) "") as [| Hfmt]; [discriminate |].
  unfold bind, emit. cbn [app].
  destruct (content file) as [| b data] eqn:Hc; [discriminate |].
  destruct (_process_bytes (b :: data) _ _ _ _ _ _) as [[[out [nw nh]] | e] log1] eqn:Hp;
    [| discriminate].
  apply process_bytes_result in Hp. destruct Hp as (img & Hopen & _ & Hres & ->).
  destruct (_split_name_ext _) as [base ext].
  intros [= <- <-]. exists img, nw, nh, out. cbn [resp_body resp_status media_type headers].
  split; [exact Hopen |]. split; [exact Hres |]. split; [reflexivity |].
  split; [reflexivity |]. split.
  - cbn [In] in Hrange.
    destruct Hrange as [<- | [<- | [<- | [E | []]]]];
      [cbn; auto | cbn; auto | cbn; auto | symmetry in E; contradiction].
  - cbn [In]. repeat split; auto 10.
Qed.

End SingleResponse.

(** ** Further edges of the helpers *)


(** ** The further properties on the small imaging library *)

Lemma one_target_keeps_ratio_witness :
  (exists r, _fit_size_keep_ratio 800 600 (Some 400) None = Ok (400, Z.max 1 r)
             /\ - 800 <= 2 * (800 * r - 600 * 400) <= 800)
  /\ (exists r, _fit_size_keep_ratio 800 600 None (Some 400) = Ok (Z.max 1 r, 400)
                /\ - 600 <= 2 * (600 * r - 800 * 400) <= 600).
Proof.
  destruct (one_target_keeps_ratio 800 600 400 ltac:(lia) ltac:(lia) ltac:(lia)) as [H1 H2].
  split; [apply H1 | apply H2]; vm_compute; discriminate.
Defined.

Lemma fit_inside_keeps_ratio_witness :
  (exists r, _fit_size_keep_ratio 800 600 (Some 400) (Some 400) = Ok (400, Z.max 1 r)
             /\ - 800 <= 2 * (800 * r - 600 * 400) <= 800)
  \/ (exists r, _fit_size_keep_ratio 800 600 (Some 400) (Some 400) = Ok (Z.max 1 r, 400)
                /\ - 600 <= 2 * (600 * r - 800 * 400) <= 600).
Proof.
  apply (fit_inside_keeps_ratio 800 600 400 400); try lia; vm_compute; discriminate.
Defined.

Lemma resize_to_own_size_is_noop_witness :
  _resize_image photo_raster (Some 800) None true = Ok photo_raster.
Proof.
  apply (resize_to_own_size_is_noop (imaging := toy_imaging) photo_raster 800 600).
  - reflexivity.
  - split; [lia | vm_compute; discriminate].
  - split; [lia | vm_compute; discriminate].
  - right. reflexivity.
  - left. reflexivity.
Defined.

Lemma percentage_exact_multiple_witness : pct_dim 800 25 = Z.max 1 (800 * 25 / 100).
Proof.
  apply (percentage_exact_multiple 800 25 ltac:(lia) ltac:(lia)).
  - vm_compute. discriminate.
  - exists 200. reflexivity.
Defined.

Lemma save_image_guard_witness :
  (exists args, _save_image photo_raster "webp" 500 = Ok (save photo_raster args)
                /\ args_in_range args)
  /\ _save_image photo_raster "bmp" 85
     = Raise (HTTPException 400 "Unsupported output format.")
  /\ exists args, _save_image photo_raster "jpeg" 85 = Ok (save photo_raster args)
                  /\ args_in_range args.
Proof.
  split; [| split].
  - apply (proj1 (save_image_guard (imaging := toy_imaging) photo_raster "webp" 500)).
    right. left. reflexivity.
  - apply (proj1 (proj2 (save_image_guard (imaging := toy_imaging) photo_raster "bmp" 85)));
      discriminate.
  - apply (proj2 (proj2 (save_image_guard (imaging := toy_imaging) photo_raster "jpeg" 85))
             " JPG "); [reflexivity | discriminate].
Defined.

Lemma prepare_for_format_result_witness :
  mode (_prepare_for_format photo_raster "jpeg") = "RGB"
  /\ ("png" = "png" \/ "png" = "webp" -> mode (_prepare_for_format photo_raster "png") <> "P")
  /\ size (_prepare_for_format photo_raster "png") = size photo_raster
  /\ _prepare_for_format (_prepare_for_format photo_raster "png") "png"
     = _prepare_for_format photo_raster "png".
Proof. apply (prepare_for_format_result (laws := toy_laws) photo_raster "png"). Defined.

Lemma single_response_reports_witness :
  exists resp log,
    run (process_single photo (Some "400") None true 85 "png") = (Ok resp, log)
    /\ exists img nw nh out,
         image_open (content photo) = Some img
         /\ resolve_size (fst (size img)) (snd (size img))
              (_parse_int (Some "400")) (_parse_int None) true = Ok (nw, nh)
         /\ resp_body resp = ImageBody out
         /\ resp_status resp = 200
         /\ In (media_type resp) ["image/jpeg"; "image/png"; "image/webp"]
         /\ In ("X-Output-Width", py_str nw) (headers resp)
         /\ In ("X-Output-Height", py_str nh) (headers resp)
         /\ In ("X-Original-Bytes", py_str (Z.of_nat (List.length (content photo))))
              (headers resp)
         /\ In ("X-Processed-Bytes", py_str (Z.of_nat (List.length out))) (headers resp)
         /\ log = [EvRead photo; EvOpen (content photo)].
Proof.
  eexists. eexists. split; [vm_compute; reflexivity |].
  apply (single_response_reports (laws := toy_laws) photo (Some "400") None true 85 "png").
  vm_compute. reflexivity.
Defined.

Lemma single_error_order_witness :
  run (process_single blank (Some "0") None true 85 "png")
  = (Raise (HTTPException 400 "Empty file."), [EvRead blank])
  /\ run (process_single garbage (Some "0") None true 85 "png")
     = (Raise (HTTPException 400 ("Could not read image: " ++ open_error (content garbage))),
        [EvRead garbage; EvOpen (content garbage)])
  /\ run (process_single photo (Some "0") None true 85 "png")
     = (Raise (HTTPException 400 "Width/Height must be positive."),
        [EvRead photo; EvOpen (content photo)]).
Proof.
  split; [| split].
  - apply (proj1 (single_error_order (imaging := toy_imaging) blank (Some "0") None true 85
                    "png" ltac:(discriminate))). reflexivity.
  - apply (proj1 (proj2 (single_error_order (imaging := toy_imaging) garbage (Some "0") None
                           true 85 "png" ltac:(discriminate)))); [discriminate | reflexivity].
  - apply (proj2 (proj2 (single_error_order (imaging := toy_imaging) photo (Some "0") None
                           true 85 "png" ltac:(discriminate)))) with (img := photo_raster);
      [discriminate | reflexivity | reflexivity].
Defined.

Lemma batch_of_one_matches_single_witness :
  exists resp log,
    run (process_single photo None None true 85 "png") = (Ok resp, log)
    /\ exists name out,
         resp_body resp = ImageBody out
         /\ In ("Content-Disposition", "attachment; filename=" ++ dquote ++ name ++ dquote)
              (headers resp)
         /\ exists resp',
              run (process_zip [photo] None None None true 85 "png")
              = (Ok resp', (log ++ [EvWrite name out])%list)
              /\ resp_body resp' = ZipBody [(name, out)].
Proof.
  eexists. eexists. split; [vm_compute; reflexivity |].
  apply (batch_of_one_matches_single (imaging := toy_imaging) photo "h" "oliday/photo.png"
           None None true 85 "png").
  - reflexivity.
  - vm_compute. reflexivity.
Defined.

Lemma preset_overrides_dimensions_witness :
  run (process_zip [photo; square] (Some "64") (Some "0") (Some "50%") true 85 "png")
  = run (process_zip [photo; square] None (Some "abc") (Some "50%") true 85 "png").
Proof.
  apply (preset_overrides_dimensions (imaging := toy_imaging)). vm_compute. discriminate.
Defined.
